(** * WebSocketInterface: the WebSocket bridge of DCC-EX CommandStation

    A shallow embedding of [WebSocketInterface.h] and
    [WebSocketInterface.cpp]: the response stream [WebSocketPrint], the
    lifecycle functions [setup], [loop], [broadcast], [isEnabled], the event
    handler [onWebSocketEvent], the command handler [handleCommand] and
    [sendResponse].

    Conventions of the embedding.
    - A [uint8_t] or [char] is a [byte]; a buffer is a [list byte]; a C string
      stored in a buffer is read with [c_str] (the bytes before the first NUL).
    - [clientCount] is a [uint8_t], kept in [Z] with its wrap-around modulo 256
      written out; [millis()] values are 32-bit, wrapped modulo 2^32.
    - A [size_t] index into a fixed-size buffer is a [nat].
    - A pointer to an [AsyncWebSocketClient] is the client's id; the status of
      the client it points to is looked up in the transport's view
      [ClientId -> AwsClientStatus] at the time of each call.
    - Calls into the transport library and into the command parser are
      recorded, in order, as a list of [Action]s.  [DIAG] logging is left
      out. *)

From Stdlib Require Import ZArith NArith List Lia.
From Stdlib Require Import Strings.Byte Strings.String Strings.Ascii.
From Stdlib Require Import Numbers.DecimalString Numbers.DecimalN.
From stdpp Require Import base list gmap.

Local Open Scope byte_scope.

(** ** Configuration (WebSocketInterface.h) *)

Definition WS_PORT : Z := 80.
Definition WS_MAX_CLIENTS : Z := 5.
Definition WS_COMMAND_BUFFER_SIZE : nat := 128.

(** ** Bytes and C strings *)

#[global] Instance byte_eq_decision : EqDecision byte := byte_eq_dec.

(** The text literal of the source, as bytes. *)
Definition bytes (s : string) : list byte := list_byte_of_string s.

(** The double quote character, for the JSON literals of the source. *)
Definition dquote : list byte := [x22].

(** What a [const char*] argument denotes: the bytes stored from the pointer
    up to, and without, the first NUL. *)
Fixpoint c_str (mem : list byte) : list byte :=
  match mem with
  | [] => []
  | b :: rest => if decide (b = x00) then [] else b :: c_str rest
  end.

(** [strlen]. *)
Fixpoint strlen (mem : list byte) : nat :=
  match mem with
  | [] => 0
  | b :: rest => if decide (b = x00) then 0 else S (strlen rest)
  end.

(** [String(n)] for an unsigned integer: its decimal digits. *)
Definition String_of_uint (n : N) : list byte :=
  bytes (NilEmpty.string_of_uint (N.to_uint n)).

(** ** The transport library (ESPAsyncWebServer), as far as the bridge uses it *)

Definition ClientId : Type := N.

Inductive AwsClientStatus : Type :=
| WS_DISCONNECTED
| WS_CONNECTED
| WS_DISCONNECTING.

#[global] Instance AwsClientStatus_eq_decision : EqDecision AwsClientStatus.
Proof. solve_decision. Defined.

Inductive AwsEventType : Type :=
| WS_EVT_CONNECT
| WS_EVT_DISCONNECT
| WS_EVT_DATA
| WS_EVT_PONG
| WS_EVT_ERROR.

(** The transport's view of its clients at the time of a call. *)
Definition Transport : Type := ClientId -> AwsClientStatus.

(** The calls the bridge makes on its collaborators. *)
Inductive Action : Type :=
| Text (c : ClientId) (msg : list byte)   (* client->text(msg) *)
| Close (c : ClientId)                    (* client->close() *)
| TextAll (msg : list byte)               (* ws->textAll(msg) *)
| CleanupClients                          (* ws->cleanupClients() *)
| Parse (cmd : list byte).                (* DCCEXParser::parse(&wsPrint, cmd, nullptr) *)

(** The outbound messages among the actions, per receiving client. *)
Definition outbound (a : Action) : list (ClientId * list byte) :=
  match a with
  | Text c msg => [(c, msg)]
  | _ => []
  end.

Definition messages (acts : list Action) : list (ClientId * list byte) :=
  concat (map outbound acts).

(** ** WebSocketPrint: the response stream *)

Definition BUFFER_SIZE : nat := 256.      (* sizeof(buffer) *)

Record WebSocketPrint : Type := mkPrint {
  client : option ClientId;               (* AsyncWebSocketClient*, may be null *)
  buffer : list byte;                     (* char buffer[256] *)
  pos : nat                               (* size_t pos *)
}.

(** The constructor: [pos(0)] and [memset(buffer, 0, sizeof(buffer))]. *)
Definition WebSocketPrint_new (c : option ClientId) : WebSocketPrint :=
  {| client := c; buffer := replicate BUFFER_SIZE x00; pos := 0 |}.

(** [client && client->status() == WS_CONNECTED]. *)
Definition connected (tr : Transport) (c : option ClientId) : bool :=
  match c with
  | Some i => bool_decide (tr i = WS_CONNECTED)
  | None => false
  end.

Definition flush (tr : Transport) (w : WebSocketPrint)
  : WebSocketPrint * list Action :=
  match client w with
  | Some i =>
      if bool_decide (0 < pos w) && connected tr (client w) then
        let terminated := <[pos w := x00]> (buffer w) in
        ({| client := client w; buffer := replicate BUFFER_SIZE x00; pos := 0 |},
         [Text i (c_str terminated)])
      else (w, [])
  | None => (w, [])
  end.

(** [write(uint8_t c)]; it always returns 1, which no caller reads. *)
Definition write (tr : Transport) (c : byte) (w : WebSocketPrint)
  : WebSocketPrint * list Action :=
  if bool_decide (pos w < BUFFER_SIZE - 1) then
    let w1 := {| client := client w;
                 buffer := <[pos w := c]> (buffer w);
                 pos := S (pos w) |} in
    if bool_decide (c = x0a) || bool_decide (BUFFER_SIZE - 2 <= pos w1)
    then flush tr w1
    else (w1, [])
  else (w, []).

(** [write(const uint8_t* buf, size_t size)]: [write] for each byte in turn. *)
Fixpoint write_buf (tr : Transport) (buf : list byte) (w : WebSocketPrint)
  : WebSocketPrint * list Action :=
  match buf with
  | [] => (w, [])
  | c :: rest =>
      let '(w1, out1) := write tr c w in
      let '(w2, out2) := write_buf tr rest w1 in
      (w2, out1 ++ out2)
  end.

(** ** The bridge state: the static members of WebSocketInterface *)

(** [new AsyncWebSocket("/ws")] and whether [onEvent] has been given the
    handler. *)
Record AsyncWebSocket : Type := mkSocket {
  ws_url : list byte;
  ws_onEvent : bool
}.

(** [new AsyncWebServer(WS_PORT)], whether the socket was added with
    [addHandler] and whether [begin()] was called.  The static-file, /api/info
    and 404 handlers answer HTTP requests only and are not modelled. *)
Record AsyncWebServer : Type := mkServer {
  srv_port : Z;
  srv_socket : bool;
  srv_begun : bool
}.

Record Bridge : Type := mkBridge {
  webServer : option AsyncWebServer;      (* nullptr is None *)
  ws : option AsyncWebSocket;             (* nullptr is None *)
  enabled : bool;
  clientCount : Z;                        (* uint8_t *)
  lastCleanup : Z                         (* static unsigned long in loop() *)
}.

(** The static member initialisation. *)
Definition Bridge_init : Bridge :=
  {| webServer := None; ws := None; enabled := false;
     clientCount := 0; lastCleanup := 0 |}.

Definition uint8 (z : Z) : Z := (z mod 256)%Z.
Definition uint32 (z : Z) : Z := (z mod 2 ^ 32)%Z.

(** [setup()].  [spiffs_begin] is the result of [SPIFFS.begin(true)] and
    [index_exists] that of [SPIFFS.exists("/index.html")], which only decides
    what is logged. *)
Definition setup (spiffs_begin index_exists : bool) (st : Bridge) : Bridge :=
  if negb spiffs_begin then st
  else
    {| webServer := Some {| srv_port := WS_PORT; srv_socket := true; srv_begun := true |};
       ws := Some {| ws_url := bytes "/ws"; ws_onEvent := true |};
       enabled := true;
       clientCount := clientCount st;
       lastCleanup := lastCleanup st |}.

(** [loop()].  [now] and [now'] are the two readings of [millis()]. *)
Definition loop (now now' : Z) (st : Bridge) : Bridge * list Action :=
  if negb (enabled st) || negb (bool_decide (is_Some (ws st))) then (st, [])
  else if bool_decide (1000 < uint32 (now - lastCleanup st))%Z then
    ({| webServer := webServer st; ws := ws st; enabled := enabled st;
        clientCount := clientCount st; lastCleanup := uint32 now' |},
     [CleanupClients])
  else (st, []).

(** [broadcast(message)]. *)
Definition broadcast (message : list byte) (st : Bridge) : list Action :=
  if enabled st && bool_decide (is_Some (ws st)) && bool_decide (0 < clientCount st)%Z
  then [TextAll (c_str message)]
  else [].

Definition isEnabled (st : Bridge) : bool := enabled st.

(** [sendResponse(client, response)]; [client] may be null. *)
Definition sendResponse (tr : Transport) (client : option ClientId)
    (response : list byte) : list Action :=
  match client with
  | Some i => if connected tr client then [Text i (c_str response)] else []
  | None => []
  end.

(** ** handleCommand: trimming and bracketing of an inbound frame *)

(** The characters the trimming removes: space, line feed, carriage return. *)
Definition is_space (c : byte) : bool :=
  bool_decide (c = " ") || bool_decide (c = x0a) || bool_decide (c = x0d).

(** The first loop of the trimming: [cmd] advances while it points at a space,
    a line feed or a carriage return.  The pointer [cmd] is the memory from
    it onwards. *)
Fixpoint skip_leading (cmd : list byte) : list byte :=
  match cmd with
  | [] => []
  | c :: rest => if is_space c then skip_leading rest else cmd
  end.

(** The second loop: while [cmdLen > 0] and [cmd[cmdLen-1]] is one of the
    three, [cmd[--cmdLen]] is set to NUL. *)
Fixpoint trim_trailing (cmd : list byte) (cmdLen : nat) : list byte * nat :=
  match cmdLen with
  | O => (cmd, O)
  | S n =>
      match cmd !! n with
      | Some c => if is_space c then trim_trailing (<[n := x00]> cmd) n
                  else (cmd, cmdLen)
      | None => (cmd, cmdLen)
      end
  end.

(** [snprintf(dst, size, "<%s>", s)]: the bytes stored in [dst], at most
    [size - 1] characters and the terminator. *)
Definition snprintf_bracketed (size : nat) (s : list byte) : list byte :=
  take (size - 1) ("<" :: c_str s ++ [">"]) ++ [x00].

(** The command text [handleCommand] hands to the parser for a frame of
    [length data] bytes, or [None] where it returns before parsing.  Of
    [char command[WS_COMMAND_BUFFER_SIZE + 1]] only the bytes the code stores,
    the frame and its terminator, are modelled: nothing after the first NUL
    is read. *)
Definition handleCommand_cmd (data : list byte) : option (list byte) :=
  let len := length data in
  if bool_decide (len = 0) || bool_decide (WS_COMMAND_BUFFER_SIZE < len) then None
  else
    let command := data ++ [x00] in
    let cmd := skip_leading command in
    let '(cmd, cmdLen) := trim_trailing cmd (strlen cmd) in
    if bool_decide (cmdLen = 0) then None
    else if bool_decide (cmd !! 0 = Some "<") then Some (c_str cmd)
    else
      let bracketedCmd := snprintf_bracketed (WS_COMMAND_BUFFER_SIZE + 3) cmd in
      Some (c_str bracketedCmd).

Section Interpreter.

(** The command parser is outside the bridge: it has a state of its own and,
    given a command text, writes its answer to the stream it is handed. *)
Variable IState : Type.
Variable parse : IState -> list byte -> IState * list byte.

(** [handleCommand(client, data, len)] with [len = length data]. *)
Definition handleCommand (tr : Transport) (client : ClientId) (data : list byte)
    (ist : IState) : IState * list Action :=
  match handleCommand_cmd data with
  | None => (ist, [])
  | Some cmd =>
      let wsPrint := WebSocketPrint_new (Some client) in
      let '(ist', answer) := parse ist cmd in
      let '(wsPrint, out1) := write_buf tr answer wsPrint in
      let '(_, out2) := flush tr wsPrint in
      (ist', Parse cmd :: out1 ++ out2)
  end.

Definition reject_notice : list byte :=
  bytes "{" ++ dquote ++ bytes "error" ++ dquote ++ bytes ":"
    ++ dquote ++ bytes "Max clients reached" ++ dquote ++ bytes "}".

Definition welcome (id : ClientId) : list byte :=
  bytes "{" ++ dquote ++ bytes "connected" ++ dquote ++ bytes ":true,"
    ++ dquote ++ bytes "clientId" ++ dquote ++ bytes ":"
    ++ String_of_uint id ++ bytes "}".

Definition set_clientCount (n : Z) (st : Bridge) : Bridge :=
  {| webServer := webServer st; ws := ws st; enabled := enabled st;
     clientCount := n; lastCleanup := lastCleanup st |}.

(** [onWebSocketEvent(server, client, type, arg, data, len)]; [server] and
    [arg] are not used by the code. *)
Definition onWebSocketEvent (tr : Transport) (client : ClientId)
    (type : AwsEventType) (data : list byte) (s : Bridge * IState)
  : (Bridge * IState) * list Action :=
  let '(st, ist) := s in
  match type with
  | WS_EVT_CONNECT =>
      if bool_decide (WS_MAX_CLIENTS <= clientCount st)%Z then
        (s, [Text client reject_notice; Close client])
      else
        ((set_clientCount (uint8 (clientCount st + 1)) st, ist),
         [Text client (welcome client)])
  | WS_EVT_DISCONNECT =>
      if bool_decide (0 < clientCount st)%Z then
        ((set_clientCount (uint8 (clientCount st - 1)) st, ist), [])
      else (s, [])
  | WS_EVT_DATA =>
      let '(ist', out) := handleCommand tr client data ist in
      ((st, ist'), out)
  | WS_EVT_PONG => (s, [])
  | WS_EVT_ERROR => (s, [])
  end.

(** One callback from the transport. *)
Record Event : Type := mkEvent {
  ev_transport : Transport;
  ev_client : ClientId;
  ev_type : AwsEventType;
  ev_data : list byte
}.

Definition on_event (e : Event) (s : Bridge * IState)
  : (Bridge * IState) * list Action :=
  onWebSocketEvent (ev_transport e) (ev_client e) (ev_type e) (ev_data e) s.

(** A run of callbacks, in order, with everything the bridge did. *)
Fixpoint run (es : list Event) (s : Bridge * IState)
  : (Bridge * IState) * list Action :=
  match es with
  | [] => (s, [])
  | e :: rest =>
      let '(s1, out1) := on_event e s in
      let '(s2, out2) := run rest s1 in
      (s2, out1 ++ out2)
  end.

(** The transport calls the handler only on a socket that was given one and
    was added to a server that has begun. *)
Definition serving (st : Bridge) : bool :=
  match webServer st, ws st with
  | Some srv, Some sock => srv_begun srv && srv_socket srv && ws_onEvent sock
  | _, _ => false
  end.

Definition deliver (e : Event) (s : Bridge * IState)
  : (Bridge * IState) * list Action :=
  if serving (fst s) then on_event e s else (s, []).

End Interpreter.

Arguments handleCommand {IState} parse tr client data ist.
Arguments onWebSocketEvent {IState} parse tr client type data s.
Arguments on_event {IState} parse e s.
Arguments run {IState} parse es s.
Arguments deliver {IState} parse e s.

(** ** Vocabulary of the statements *)

Definition no_nul (l : list byte) : Prop := Forall (fun b => b <> x00) l.
Definition no_newline (l : list byte) : Prop := Forall (fun b => b <> x0a) l.

(** The texts of the outbound messages among the actions, in order. *)
Definition payloads (acts : list Action) : list (list byte) :=
  map snd (messages acts).

(** The stream that holds the bytes [pend], written since the last message
    went out, in a buffer that is zero elsewhere. *)
Definition holding (c : option ClientId) (pend : list byte) : WebSocketPrint :=
  {| client := c;
     buffer := pend ++ replicate (BUFFER_SIZE - length pend) x00;
     pos := length pend |}.

(** Whether [write] sends after storing [x] behind the pending bytes [pend]:
    on a line feed, or when the cursor reaches [sizeof(buffer) - 2]. *)
Definition sends (pend : list byte) (x : byte) : bool :=
  bool_decide (x = x0a) || bool_decide (BUFFER_SIZE - 2 <= S (length pend)).

(** How a live stream cuts what is written to it: the buffers sent while
    writing [bs] behind [pend], and the bytes left pending. *)
Fixpoint split_out (pend bs : list byte) : list (list byte) * list byte :=
  match bs with
  | [] => ([], pend)
  | x :: rest =>
      if sends pend x then
        let '(chunks, kept) := split_out [] rest in
        ((pend ++ [x]) :: chunks, kept)
      else split_out (pend ++ [x]) rest
  end.

(** One interpreter answer through a fresh stream: what goes out while the
    answer is written, and what the closing [flush] sends. *)
Definition respond (tr : Transport) (c : option ClientId) (answer : list byte)
  : list Action * list Action :=
  let '(w, out1) := write_buf tr answer (WebSocketPrint_new c) in
  (out1, snd (flush tr w)).

(** A transport on which every client is connected, and one on which none is. *)
Definition all_connected : Transport := fun _ => WS_CONNECTED.
Definition all_disconnected : Transport := fun _ => WS_DISCONNECTED.

(** ** The normalizer, in the spec's words

    Section 4.2 of the design: reject a length of zero or above the maximum;
    trim leading and trailing whitespace (space, line feed, carriage return);
    reject an empty result; pass a text that starts with [<] through
    unchanged; otherwise wrap it as [<] text [>]. *)

Fixpoint spec_trim_left (text : list byte) : list byte :=
  match text with
  | [] => []
  | c :: rest => if is_space c then spec_trim_left rest else text
  end.

Definition spec_trim_right (text : list byte) : list byte :=
  reverse (spec_trim_left (reverse text)).

Definition spec_trim (text : list byte) : list byte :=
  spec_trim_right (spec_trim_left text).

Definition spec_bracket (text : list byte) : option (list byte) :=
  if bool_decide (text = []) then None
  else if bool_decide (head text = Some "<") then Some text
  else Some ("<" :: text ++ [">"]).

Definition spec_rejects_length (raw : list byte) : bool :=
  bool_decide (length raw = 0) || bool_decide (WS_COMMAND_BUFFER_SIZE < length raw).

Definition spec_normalize (raw : list byte) : option (list byte) :=
  if spec_rejects_length raw then None else spec_bracket (spec_trim raw).

(** ** Sample collaborators for the worked instances *)

(** A parser that answers each command with the command and a line feed. *)
Definition echo_parse (ist : unit) (cmd : list byte) : unit * list byte :=
  (ist, cmd ++ [x0a]).

Definition event (c : ClientId) (type : AwsEventType) (data : list byte) : Event :=
  {| ev_transport := all_connected; ev_client := c; ev_type := type; ev_data := data |}.

(** ** Bookkeeping for the statements about admission *)

(** The count is within its bounds. *)
Definition count_in_bounds (st : Bridge) : Prop :=
  (0 <= clientCount st <= WS_MAX_CLIENTS)%Z.

(** The clients that were admitted and have not disconnected since.  The code
    keeps no such set: it is followed here next to the run. *)
Definition tracked_step (e : Event) (st : Bridge) (adm : gset ClientId) : gset ClientId :=
  match ev_type e with
  | WS_EVT_CONNECT =>
      if bool_decide (clientCount st < WS_MAX_CLIENTS)%Z then adm ∪ {[ev_client e]}
      else adm
  | WS_EVT_DISCONNECT => adm ∖ {[ev_client e]}
  | _ => adm
  end.

Fixpoint run_tracking {IState : Type}
    (parse : IState -> list byte -> IState * list byte)
    (es : list Event) (s : Bridge * IState) (adm : gset ClientId)
  : (Bridge * IState) * gset ClientId :=
  match es with
  | [] => (s, adm)
  | e :: rest =>
      run_tracking parse rest (fst (on_event parse e s)) (tracked_step e (fst s) adm)
  end.

(** Five clients connect, a sixth is turned away, and the transport reports
    the disconnect of the sixth that its forced close brings about. *)
Definition rejected_then_closed : list Event :=
  [event 1%N WS_EVT_CONNECT []; event 2%N WS_EVT_CONNECT [];
   event 3%N WS_EVT_CONNECT []; event 4%N WS_EVT_CONNECT [];
   event 5%N WS_EVT_CONNECT []; event 6%N WS_EVT_CONNECT [];
   event 6%N WS_EVT_DISCONNECT []].

(** ** Vocabulary of the further properties *)

(** The stream's buffer has its declared size and the cursor is inside it. *)
Definition stream_ok (w : WebSocketPrint) : Prop :=
  length (buffer w) = BUFFER_SIZE /\ pos w < BUFFER_SIZE.

(** A line feed occurs in a text at most once, as its last byte. *)
Definition newline_only_last (m : list byte) : Prop :=
  forall k, m !! k = Some x0a -> S k = length m.

(** All bytes of a text are among the three the trimming removes. *)
Definition all_space (l : list byte) : Prop := Forall (fun c => is_space c = true) l.

(** A callback that fits the tracked set: a connect comes from a client that
    is not in it, a disconnect from a client that is. *)
Definition orderly_step (e : Event) (adm : gset ClientId) : Prop :=
  match ev_type e with
  | WS_EVT_CONNECT => ev_client e ∉ adm
  | WS_EVT_DISCONNECT => ev_client e ∈ adm
  | _ => True
  end.

Fixpoint orderly_run {IState : Type}
    (parse : IState -> list byte -> IState * list byte)
    (es : list Event) (s : Bridge * IState) (adm : gset ClientId) : Prop :=
  match es with
  | [] => True
  | e :: rest =>
      orderly_step e adm /\
      orderly_run parse rest (fst (on_event parse e s)) (tracked_step e (fst s) adm)
  end.

(** The parser may write its answer in several blocks, one [write(buf, size)]
    call after another. *)
Fixpoint write_blocks (tr : Transport) (blocks : list (list byte))
    (w : WebSocketPrint) : WebSocketPrint * list Action :=
  match blocks with
  | [] => (w, [])
  | buf :: rest =>
      let '(w1, out1) := write_buf tr buf w in
      let '(w2, out2) := write_blocks tr rest w1 in
      (w2, out1 ++ out2)
  end.

(** * Properties *)

(** ** C strings *)

Lemma c_str_app_nul (l r : list byte) : c_str (l ++ x00 :: r) = c_str l.
Proof.
  induction l as [|b l IH]; simpl.
  - reflexivity.
  - destruct (decide (b = x00)); [reflexivity | now rewrite IH].
Qed.

Lemma c_str_no_nul (l : list byte) : no_nul l -> c_str l = l.
Proof.
  induction 1 as [|b l Hb _ IH]; simpl; [reflexivity|].
  destruct (decide (b = x00)); [contradiction | now rewrite IH].
Qed.

Lemma c_str_is_no_nul (l : list byte) : no_nul (c_str l).
Proof.
  induction l as [|b l IH]; simpl; [constructor|].
  destruct (decide (b = x00)); constructor; assumption.
Qed.

Lemma c_str_length (l : list byte) : length (c_str l) <= length l.
Proof.
  induction l as [|b l IH]; simpl; [lia|].
  destruct (decide (b = x00)); simpl; lia.
Qed.

Lemma strlen_c_str (l : list byte) : strlen l = length (c_str l).
Proof.
  induction l as [|b l IH]; simpl; [reflexivity|].
  destruct (decide (b = x00)); simpl; congruence.
Qed.

Lemma c_str_padded (l : list byte) (k : nat) :
  0 < k -> c_str (l ++ replicate k x00) = c_str l.
Proof.
  destruct k as [|k]; [lia|]. intros _. simpl. apply c_str_app_nul.
Qed.

(** ** The response stream *)

Ltac size_lia :=
  unfold BUFFER_SIZE, WS_COMMAND_BUFFER_SIZE in *;
  rewrite ?length_app in *; cbn [length] in *; lia.

Lemma new_holding (c : option ClientId) : WebSocketPrint_new c = holding c [].
Proof. reflexivity. Qed.

Lemma holding_snoc (c : option ClientId) (pend : list byte) (x : byte) :
  length pend < BUFFER_SIZE ->
  {| client := c;
     buffer := <[length pend := x]> (buffer (holding c pend));
     pos := S (length pend) |} = holding c (pend ++ [x]).
Proof.
  intros Hlen. unfold holding. cbn [buffer]. f_equal.
  - rewrite insert_app_r_alt by lia. rewrite Nat.sub_diag.
    rewrite length_app. cbn [length].
    replace (BUFFER_SIZE - length pend) with (S (BUFFER_SIZE - (length pend + 1))) by lia.
    cbn [replicate]. rewrite <- app_assoc. reflexivity.
  - rewrite length_app. cbn [length]. lia.
Qed.

Lemma flush_holding_live (tr : Transport) (i : ClientId) (pend : list byte) :
  tr i = WS_CONNECTED -> pend <> [] -> length pend < BUFFER_SIZE ->
  flush tr (holding (Some i) pend)
  = (holding (Some i) [], [Text i (c_str pend)]).
Proof.
  intros Hlive Hne Hlen. unfold flush, holding, connected.
  cbn [client pos buffer]. rewrite Hlive.
  assert (0 < length pend) by (destruct pend; [congruence | simpl; lia]).
  rewrite !bool_decide_eq_true_2 by (lia || reflexivity). cbn [andb].
  rewrite insert_app_r_alt by lia. rewrite insert_replicate.
  rewrite c_str_padded by lia. reflexivity.
Qed.

Lemma flush_holding_empty (tr : Transport) (c : option ClientId) :
  flush tr (holding c []) = (holding c [], []).
Proof. unfold flush. simpl. destruct c; reflexivity. Qed.

Lemma write_holding_live (tr : Transport) (i : ClientId) (pend : list byte) (x : byte) :
  tr i = WS_CONNECTED -> length pend < BUFFER_SIZE - 2 ->
  write tr x (holding (Some i) pend)
  = if sends pend x
    then (holding (Some i) [], [Text i (c_str (pend ++ [x]))])
    else (holding (Some i) (pend ++ [x]), []).
Proof.
  intros Hlive Hlen. unfold write.
  change (pos (holding (Some i) pend)) with (length pend).
  change (client (holding (Some i) pend)) with (Some i).
  rewrite bool_decide_eq_true_2 by (unfold BUFFER_SIZE in *; lia).
  cbv zeta. rewrite holding_snoc by (unfold BUFFER_SIZE in *; lia).
  change (pos (holding (Some i) (pend ++ [x]))) with (length (pend ++ [x])).
  unfold sends. rewrite length_app. simpl length. rewrite Nat.add_1_r.
  destruct (bool_decide (x = x0a) || bool_decide (BUFFER_SIZE - 2 <= S (length pend)));
    [|reflexivity].
  assert (Hl : length (pend ++ [x]) < BUFFER_SIZE)
    by (rewrite length_app; simpl; unfold BUFFER_SIZE in *; lia).
  apply flush_holding_live; [assumption | | assumption].
  destruct pend; discriminate.
Qed.

Lemma write_buf_app (tr : Transport) (p q : list byte) (w : WebSocketPrint) :
  write_buf tr (p ++ q) w
  = let '(w1, out1) := write_buf tr p w in
    let '(w2, out2) := write_buf tr q w1 in
    (w2, out1 ++ out2).
Proof.
  revert w. induction p as [|x p IH]; intros w; simpl.
  - destruct (write_buf tr q w); reflexivity.
  - destruct (write tr x w) as [w1 o1]. rewrite IH.
    destruct (write_buf tr p w1) as [w2 o2].
    destruct (write_buf tr q w2) as [w3 o3].
    now rewrite app_assoc.
Qed.

Lemma split_out_left_lt (bs pend : list byte) :
  length pend < BUFFER_SIZE - 2 ->
  length (snd (split_out pend bs)) < BUFFER_SIZE - 2.
Proof.
  revert pend. induction bs as [|x bs IH]; intros pend Hlen; simpl; [assumption|].
  destruct (sends pend x) eqn:Hs.
  - specialize (IH [] ltac:(unfold BUFFER_SIZE; simpl; lia)).
    destruct (split_out [] bs); assumption.
  - apply IH. unfold sends in Hs. apply orb_false_elim in Hs as [_ Hs].
    apply bool_decide_eq_false in Hs. size_lia.
Qed.

Lemma split_out_concat (bs pend : list byte) :
  concat (fst (split_out pend bs)) ++ snd (split_out pend bs) = pend ++ bs.
Proof.
  revert pend. induction bs as [|x bs IH]; intros pend; simpl.
  - now rewrite app_nil_r.
  - destruct (sends pend x).
    + specialize (IH []). destruct (split_out [] bs) as [chunks kept].
      simpl in *. rewrite <- !app_assoc. simpl. now rewrite IH.
    + rewrite IH. now rewrite <- app_assoc.
Qed.

Lemma split_out_quiet (bs pend : list byte) :
  no_newline bs -> length pend + length bs < BUFFER_SIZE - 2 ->
  split_out pend bs = ([], pend ++ bs).
Proof.
  revert pend. induction bs as [|x bs IH]; intros pend Hnl Hlen; simpl.
  - now rewrite app_nil_r.
  - inversion Hnl as [|? ? Hx Hbs]; subst. simpl in Hlen.
    unfold sends. rewrite bool_decide_eq_false_2 by assumption.
    rewrite bool_decide_eq_false_2 by size_lia. simpl.
    rewrite IH; [now rewrite <- app_assoc | assumption |].
    size_lia.
Qed.

(** Writing to a live stream is cutting with [split_out]. *)
Lemma write_buf_live (tr : Transport) (i : ClientId) (bs pend : list byte) :
  tr i = WS_CONNECTED -> length pend < BUFFER_SIZE - 2 ->
  write_buf tr bs (holding (Some i) pend)
  = (holding (Some i) (snd (split_out pend bs)),
     map (fun m => Text i (c_str m)) (fst (split_out pend bs))).
Proof.
  intros Hlive. revert pend.
  induction bs as [|x bs IH]; intros pend Hlen; simpl; [reflexivity|].
  rewrite write_holding_live by assumption.
  destruct (sends pend x) eqn:Hs.
  - rewrite IH by (unfold BUFFER_SIZE; simpl; lia).
    destruct (split_out [] bs) as [chunks kept]. reflexivity.
  - rewrite IH; [now rewrite app_nil_l|].
    unfold sends in Hs. apply orb_false_elim in Hs as [_ Hs].
    apply bool_decide_eq_false in Hs. size_lia.
Qed.

Lemma payloads_texts (i : ClientId) (ms : list (list byte)) :
  payloads (map (fun m => Text i (c_str m)) ms) = map c_str ms.
Proof.
  unfold payloads, messages. induction ms as [|m ms IH]; simpl; [reflexivity|].
  now f_equal.
Qed.

Lemma payloads_app (a b : list Action) : payloads (a ++ b) = payloads a ++ payloads b.
Proof. unfold payloads, messages. now rewrite map_app, concat_app, map_app. Qed.

Lemma no_nul_app (a b : list byte) : no_nul (a ++ b) <-> no_nul a /\ no_nul b.
Proof. apply Forall_app. Qed.

Lemma map_c_str_no_nul (ms : list (list byte)) :
  no_nul (concat ms) -> map c_str ms = ms.
Proof.
  induction ms as [|m ms IH]; simpl; [reflexivity|].
  intros [Hm Hms]%no_nul_app. now rewrite c_str_no_nul, IH.
Qed.

Lemma respond_live (tr : Transport) (i : ClientId) (bs : list byte) :
  tr i = WS_CONNECTED ->
  respond tr (Some i) bs
  = (map (fun m => Text i (c_str m)) (fst (split_out [] bs)),
     match snd (split_out [] bs) with
     | [] => []
     | kept => [Text i (c_str kept)]
     end).
Proof.
  intros Hlive. unfold respond. rewrite new_holding.
  rewrite write_buf_live by (assumption || size_lia).
  pose proof (split_out_left_lt bs [] ltac:(size_lia)) as Hlt.
  destruct (snd (split_out [] bs)) as [|b kept] eqn:Hk.
  - now rewrite flush_holding_empty.
  - rewrite flush_holding_live; [reflexivity | assumption | discriminate | size_lia].
Qed.

(** C5 (amended). For every byte sequence with no line feed and fewer than
    capacity minus two (254) bytes, writing it to a fresh stream bound to a
    live connection sends nothing; the flush that follows sends nothing when
    the sequence is empty and otherwise exactly one message, the written bytes
    up to their first NUL, which is all of them when none is NUL. *)
Theorem C5_one_message_on_flush (tr : Transport) (i : ClientId) (bs : list byte) :
  tr i = WS_CONNECTED -> no_newline bs -> length bs < BUFFER_SIZE - 2 ->
  fst (respond tr (Some i) bs) = [] /\
  snd (respond tr (Some i) bs)
    = (if bool_decide (bs = []) then [] else [Text i (c_str bs)]) /\
  (bs <> [] -> no_nul bs -> snd (respond tr (Some i) bs) = [Text i bs]).
Proof.
  intros Hlive Hnl Hlen.
  rewrite respond_live by assumption.
  rewrite split_out_quiet by (assumption || size_lia).
  cbn [fst snd map app].
  destruct bs as [|b bs].
  - repeat split. intros Hne; congruence.
  - split; [reflexivity|]. split.
    + now rewrite bool_decide_eq_false_2 by discriminate.
    + intros _ Hnul. now rewrite (c_str_no_nul (b :: bs)).
Qed.

Lemma C5_one_message_on_flush_witness :
  all_connected 7%N = WS_CONNECTED /\ no_newline (bytes "<p1>") /\
  length (bytes "<p1>") < BUFFER_SIZE - 2 /\
  fst (respond all_connected (Some 7%N) (bytes "<p1>")) = [] /\
  snd (respond all_connected (Some 7%N) (bytes "<p1>")) = [Text 7%N (bytes "<p1>")].
Proof.
  assert (Hnl : no_newline (bytes "<p1>")) by (repeat constructor; discriminate).
  assert (Hlen : length (bytes "<p1>") < BUFFER_SIZE - 2) by (vm_compute; lia).
  pose proof (C5_one_message_on_flush all_connected 7%N (bytes "<p1>")
                eq_refl Hnl Hlen) as (Hquiet & _ & Hone).
  split; [reflexivity|]. split; [exact Hnl|]. split; [exact Hlen|].
  split; [exact Hquiet|].
  apply Hone; [discriminate | repeat constructor; discriminate].
Defined.

(** C5 as stated fails at 254 bytes, fewer than the capacity of 256: the
    message goes out while writing, and the flush sends nothing. *)
Lemma C5_counterexample :
  no_newline (replicate 254 "a") /\
  length (replicate 254 "a") < BUFFER_SIZE /\
  respond all_connected (Some 1%N) (replicate 254 "a")
  = ([Text 1%N (replicate 254 "a")], []).
Proof.
  split; [|split].
  - apply Forall_replicate. discriminate.
  - vm_compute. lia.
  - vm_compute. reflexivity.
Qed.

(** The other two ways C5 as stated fails: nothing written, nothing sent; a
    NUL among the bytes ends the message. *)
Lemma respond_nothing_written :
  respond all_connected (Some 1%N) [] = ([], []).
Proof. reflexivity. Qed.

Lemma respond_cut_at_nul :
  respond all_connected (Some 1%N) ["A"; x00; "B"] = ([], [Text 1%N ["A"]]).
Proof. vm_compute. reflexivity. Qed.

(** C6 (amended). For every byte sequence written to a fresh stream bound to a
    live connection: each write of a line feed, and each write that brings the
    cursor to capacity minus two, sends the pending bytes as one message and
    resets the cursor to zero, and every other write sends nothing; when no
    written byte is NUL, the messages sent, the one of the closing flush
    included, concatenate to the bytes written. *)
Theorem C6_flush_points_and_concatenation
    (tr : Transport) (i : ClientId) (bs : list byte) :
  tr i = WS_CONNECTED ->
  (forall p x s, bs = p ++ x :: s ->
     let w := fst (write_buf tr p (WebSocketPrint_new (Some i))) in
     let r := write tr x w in
     if bool_decide (x = x0a) || bool_decide (BUFFER_SIZE - 2 <= S (pos w))
     then snd r = [Text i (c_str (take (pos w) (buffer w) ++ [x]))]
          /\ pos (fst r) = 0
     else snd r = [] /\ pos (fst r) = S (pos w)) /\
  (no_nul bs ->
   concat (payloads (fst (respond tr (Some i) bs) ++ snd (respond tr (Some i) bs)))
   = bs).
Proof.
  intros Hlive. split.
  - intros p x s _. cbv zeta. rewrite new_holding.
    rewrite write_buf_live by (assumption || size_lia). cbn [fst].
    pose proof (split_out_left_lt p [] ltac:(size_lia)) as Hlt.
    set (q := snd (split_out [] p)) in *.
    rewrite write_holding_live by assumption.
    change (pos (holding (Some i) q)) with (length q).
    change (buffer (holding (Some i) q))
      with (q ++ replicate (BUFFER_SIZE - length q) x00).
    rewrite take_app_length. unfold sends.
    destruct (bool_decide (x = x0a) || bool_decide (BUFFER_SIZE - 2 <= S (length q))).
    + split; reflexivity.
    + split; [reflexivity|]. cbn [fst holding pos]. size_lia.
  - intros Hnul. rewrite respond_live by assumption. cbn [fst snd].
    rewrite payloads_app, payloads_texts, concat_app.
    pose proof (split_out_concat bs []) as Hcat. rewrite app_nil_l in Hcat.
    rewrite <- Hcat in Hnul. apply no_nul_app in Hnul as [Hc Hk].
    rewrite map_c_str_no_nul by assumption.
    rewrite <- Hcat at 3. f_equal.
    destruct (snd (split_out [] bs)) as [|b kept]; [reflexivity|].
    rewrite (c_str_no_nul (b :: kept)) by assumption.
    unfold payloads, messages. cbn. now rewrite app_nil_r.
Qed.

Lemma C6_flush_points_and_concatenation_witness :
  all_connected 3%N = WS_CONNECTED /\ no_nul ["a"; x0a; "b"] /\
  (snd (write all_connected x0a
          (fst (write_buf all_connected ["a"] (WebSocketPrint_new (Some 3%N)))))
   = [Text 3%N ["a"; x0a]]
   /\ pos (fst (write all_connected x0a
                  (fst (write_buf all_connected ["a"] (WebSocketPrint_new (Some 3%N))))))
      = 0) /\
  concat (payloads (fst (respond all_connected (Some 3%N) ["a"; x0a; "b"])
                    ++ snd (respond all_connected (Some 3%N) ["a"; x0a; "b"])))
  = ["a"; x0a; "b"].
Proof.
  assert (Hnul : no_nul ["a"; x0a; "b"]) by (repeat constructor; discriminate).
  pose proof (C6_flush_points_and_concatenation all_connected 3%N
                ["a"; x0a; "b"] eq_refl) as [Hstep Hcat].
  split; [reflexivity|]. split; [exact Hnul|]. split.
  - exact (Hstep ["a"] x0a ["b"] eq_refl).
  - exact (Hcat Hnul).
Defined.

(** C6 as stated fails on a sequence that holds a NUL: the message is cut
    there, and the bytes behind it are never sent. *)
Lemma C6_counterexample :
  all_connected 1%N = WS_CONNECTED /\
  respond all_connected (Some 1%N) ["A"; x00; "B"; x0a; "C"]
  = ([Text 1%N ["A"]], [Text 1%N ["C"]]) /\
  concat (payloads
            (fst (respond all_connected (Some 1%N) ["A"; x00; "B"; x0a; "C"])
             ++ snd (respond all_connected (Some 1%N) ["A"; x00; "B"; x0a; "C"])))
  <> ["A"; x00; "B"; x0a; "C"].
Proof.
  split; [reflexivity|]. split; [vm_compute; reflexivity|].
  vm_compute. discriminate.
Qed.

Lemma flush_stale (tr : Transport) (w : WebSocketPrint) :
  connected tr (client w) = false -> flush tr w = (w, []).
Proof.
  intros Hdead. unfold flush. destruct (client w); [|reflexivity].
  rewrite Hdead. now rewrite andb_false_r.
Qed.

Lemma flush_nothing_pending (tr : Transport) (w : WebSocketPrint) :
  pos w = 0 -> flush tr w = (w, []).
Proof.
  intros Hpos. unfold flush. rewrite Hpos.
  destruct (client w); reflexivity.
Qed.

Lemma write_stale (tr : Transport) (x : byte) (w : WebSocketPrint) :
  connected tr (client w) = false ->
  snd (write tr x w) = [] /\ client (fst (write tr x w)) = client w.
Proof.
  intros Hdead. unfold write.
  destruct (bool_decide (pos w < BUFFER_SIZE - 1)); [|now split].
  cbv zeta.
  match goal with |- context [if ?b then _ else _] => destruct b end;
    [|now split].
  rewrite flush_stale by exact Hdead. now split.
Qed.

Lemma write_buf_stale (tr : Transport) (bs : list byte) (w : WebSocketPrint) :
  connected tr (client w) = false ->
  snd (write_buf tr bs w) = [] /\ client (fst (write_buf tr bs w)) = client w.
Proof.
  revert w. induction bs as [|x bs IH]; intros w Hdead; simpl; [now split|].
  destruct (write_stale tr x w Hdead) as [Hout Hcl].
  destruct (write tr x w) as [w1 o1]. simpl in Hout, Hcl. subst o1.
  rewrite <- Hcl in Hdead. destruct (IH w1 Hdead) as [Hout' Hcl'].
  destruct (write_buf tr bs w1) as [w2 o2]. simpl in *. subst o2.
  split; congruence.
Qed.

(** C9. For every stream whose connection is not live (a null client, or a
    client whose status is not WS_CONNECTED), [flush] does nothing: it sends
    no message, fails in no way and leaves the stream as it was; whatever is
    written to such a stream, before or after, is sent neither by the writes
    nor by a later [flush].  On a stream with nothing pending, [flush] sends
    nothing either. *)
Theorem C9_flush_on_stale_connection (tr : Transport) (w : WebSocketPrint) :
  (connected tr (client w) = false ->
   flush tr w = (w, []) /\
   forall bs, snd (write_buf tr bs w) = [] /\
              snd (flush tr (fst (write_buf tr bs w))) = []) /\
  (pos w = 0 -> flush tr w = (w, [])).
Proof.
  split.
  - intros Hdead. split; [now apply flush_stale|].
    intros bs. destruct (write_buf_stale tr bs w Hdead) as [Hout Hcl].
    split; [exact Hout|].
    rewrite flush_stale; [reflexivity | now rewrite Hcl].
  - apply flush_nothing_pending.
Qed.

Lemma C9_flush_on_stale_connection_witness :
  connected all_disconnected (client (holding (Some 4%N) (bytes "<p0>"))) = false /\
  flush all_disconnected (holding (Some 4%N) (bytes "<p0>"))
  = (holding (Some 4%N) (bytes "<p0>"), []) /\
  pos (WebSocketPrint_new (Some 4%N)) = 0 /\
  flush all_connected (WebSocketPrint_new (Some 4%N))
  = (WebSocketPrint_new (Some 4%N), []).
Proof.
  split; [reflexivity|]. split.
  - exact (proj1 (proj1 (C9_flush_on_stale_connection all_disconnected
                           (holding (Some 4%N) (bytes "<p0>"))) eq_refl)).
  - split; [reflexivity|].
    exact (proj2 (C9_flush_on_stale_connection all_connected
                    (WebSocketPrint_new (Some 4%N))) eq_refl).
Defined.

(** ** Trimming and bracketing *)

Lemma is_space_not_nul (c : byte) : is_space c = true -> c <> x00.
Proof. intros Hs ->. discriminate. Qed.

Lemma c_str_split (l : list byte) : exists tail, l ++ [x00] = c_str l ++ x00 :: tail.
Proof.
  induction l as [|b l [tail IH]]; simpl.
  - now exists [].
  - destruct (decide (b = x00)) as [->|Hb].
    + now exists (l ++ [x00]).
    + exists tail. simpl. now rewrite IH.
Qed.

Lemma skip_leading_c_str (data : list byte) :
  exists tail, skip_leading (data ++ [x00])
               = spec_trim_left (c_str data) ++ x00 :: tail.
Proof.
  induction data as [|c data [tail IH]]; simpl.
  - now exists [].
  - destruct (is_space c) eqn:Hs.
    + pose proof (is_space_not_nul c Hs) as Hc.
      destruct (decide (c = x00)); [contradiction|]. simpl. rewrite Hs.
      now exists tail.
    + destruct (decide (c = x00)) as [->|Hc].
      * now exists (data ++ [x00]).
      * simpl. rewrite Hs. destruct (c_str_split data) as [tail' Ht].
        exists tail'. simpl. now rewrite Ht.
Qed.

Lemma spec_trim_left_no_nul (l : list byte) : no_nul l -> no_nul (spec_trim_left l).
Proof.
  induction 1 as [|b l Hb Hl IH]; simpl; [constructor|].
  destruct (is_space b); [assumption | now constructor].
Qed.

Lemma spec_trim_left_length (l : list byte) : length (spec_trim_left l) <= length l.
Proof.
  induction l as [|b l IH]; simpl; [lia|]. destruct (is_space b); simpl; lia.
Qed.

Lemma spec_trim_left_head (l : list byte) (c : byte) :
  head (spec_trim_left l) = Some c -> is_space c = false.
Proof.
  induction l as [|b l IH]; simpl; [discriminate|].
  destruct (is_space b) eqn:Hb; [assumption|]. simpl. congruence.
Qed.


Lemma spec_trim_right_snoc (u : list byte) (c : byte) :
  spec_trim_right (u ++ [c])
  = if is_space c then spec_trim_right u else u ++ [c].
Proof.
  unfold spec_trim_right. rewrite reverse_snoc. simpl.
  destruct (is_space c); [reflexivity|].
  now rewrite reverse_cons, reverse_involutive.
Qed.

Lemma spec_trim_right_length (l : list byte) : length (spec_trim_right l) <= length l.
Proof.
  unfold spec_trim_right. rewrite length_reverse.
  etransitivity; [apply spec_trim_left_length|]. now rewrite length_reverse.
Qed.

Lemma spec_trim_right_no_nul (l : list byte) : no_nul l -> no_nul (spec_trim_right l).
Proof.
  intros Hl. unfold spec_trim_right, no_nul in *.
  apply Forall_reverse, spec_trim_left_no_nul, Forall_reverse, Hl.
Qed.

Lemma spec_trim_right_last (l : list byte) (c : byte) :
  last (spec_trim_right l) = Some c -> is_space c = false.
Proof.
  unfold spec_trim_right. rewrite last_reverse. apply spec_trim_left_head.
Qed.


Lemma spec_trim_eq (l : list byte) : spec_trim l = spec_trim_right (spec_trim_left l).
Proof. reflexivity. Qed.

(** The second loop leaves the right-trimmed text, terminated. *)
Lemma trim_trailing_spec (t tail : list byte) :
  exists tail',
    trim_trailing (t ++ x00 :: tail) (length t)
    = (spec_trim_right t ++ x00 :: tail', length (spec_trim_right t)).
Proof.
  revert tail. induction t as [|c u IH] using rev_ind; intros tail.
  - now exists tail.
  - rewrite length_app. cbn [length]. rewrite Nat.add_1_r. cbn [trim_trailing].
    rewrite <- app_assoc. cbn [app].
    rewrite list_lookup_middle by reflexivity.
    rewrite spec_trim_right_snoc. destruct (is_space c) eqn:Hc.
    + replace (<[length u := x00]> (u ++ c :: x00 :: tail))
        with (u ++ x00 :: x00 :: tail).
      * apply IH.
      * rewrite insert_app_r_alt by lia. now rewrite Nat.sub_diag.
    + exists tail. rewrite length_app. cbn [length]. rewrite Nat.add_1_r.
      now rewrite <- app_assoc.
Qed.

Lemma take_all {A : Type} (n : nat) (l : list A) : length l <= n -> take n l = l.
Proof. apply take_ge. Qed.

(** What [handleCommand] computes is the spec's trimming and bracketing,
    applied to the frame read as a C string. *)
Lemma handleCommand_cmd_spec (data : list byte) :
  handleCommand_cmd data
  = if spec_rejects_length data then None
    else spec_bracket (spec_trim (c_str data)).
Proof.
  unfold handleCommand_cmd, spec_rejects_length.
  destruct (bool_decide (length data = 0)) eqn:H0; [reflexivity|].
  destruct (bool_decide (WS_COMMAND_BUFFER_SIZE < length data)) eqn:Hmax;
    [reflexivity|].
  cbn [orb]. apply bool_decide_eq_false in Hmax.
  destruct (skip_leading_c_str data) as [tail Hskip]. rewrite Hskip.
  set (t := spec_trim_left (c_str data)).
  assert (Ht : no_nul t) by apply spec_trim_left_no_nul, c_str_is_no_nul.
  rewrite strlen_c_str, c_str_app_nul, (c_str_no_nul t Ht).
  destruct (trim_trailing_spec t tail) as [tail' Htrim]. rewrite Htrim.
  rewrite spec_trim_eq. fold t. set (X := spec_trim_right t).
  assert (HX : no_nul X) by now apply spec_trim_right_no_nul.
  assert (HlenX : length X <= WS_COMMAND_BUFFER_SIZE).
  { etransitivity; [apply spec_trim_right_length|].
    etransitivity; [apply spec_trim_left_length|].
    etransitivity; [apply c_str_length|]. lia. }
  unfold spec_bracket.
  destruct (decide (X = [])) as [Hnil|Hne].
  - now rewrite Hnil.
  - assert (Hlen0 : length X <> 0) by (destruct X; [congruence | discriminate]).
    rewrite (bool_decide_eq_false_2 (length X = 0)) by assumption.
    rewrite (bool_decide_eq_false_2 (X = [])) by assumption.
    assert (Hhead : (X ++ x00 :: tail') !! 0 = head X)
      by (destruct X; [congruence | reflexivity]).
    rewrite Hhead.
    destruct (bool_decide (head X = Some "<")).
    + now rewrite c_str_app_nul, c_str_no_nul.
    + unfold snprintf_bracketed.
      rewrite (c_str_app_nul X tail'), (c_str_no_nul X HX).
      rewrite take_all.
      * rewrite (c_str_app_nul ("<" :: X ++ [">"]) []).
        apply f_equal, c_str_no_nul.
        constructor; [discriminate|]. apply no_nul_app. split; [assumption|].
        constructor; [discriminate | constructor].
      * cbn [length]. rewrite length_app. cbn [length].
        unfold WS_COMMAND_BUFFER_SIZE in *. lia.
Qed.


Lemma spec_trim_last (l : list byte) (c : byte) :
  last (spec_trim l) = Some c -> is_space c = false.
Proof. apply spec_trim_right_last. Qed.

Lemma spec_bracket_Some (X : list byte) :
  X <> [] ->
  spec_bracket X
  = Some (if bool_decide (head X = Some "<") then X else "<" :: X ++ [">"]).
Proof.
  intros Hne. unfold spec_bracket.
  rewrite bool_decide_eq_false_2 by assumption.
  now destruct (bool_decide (head X = Some "<")).
Qed.

Lemma spec_bracket_None (X : list byte) : spec_bracket X = None <-> X = [].
Proof.
  unfold spec_bracket. destruct (decide (X = [])) as [->|Hne].
  - now split.
  - rewrite bool_decide_eq_false_2 by assumption.
    destruct (bool_decide (head X = Some "<")); split; (discriminate || contradiction).
Qed.

Lemma spec_rejects_length_false (data : list byte) :
  spec_rejects_length data = false
  <-> length data <> 0 /\ length data <= WS_COMMAND_BUFFER_SIZE.
Proof.
  unfold spec_rejects_length. rewrite orb_false_iff, !bool_decide_eq_false. lia.
Qed.

Lemma handleCommand_cmd_accepts (data : list byte) :
  length data <> 0 -> length data <= WS_COMMAND_BUFFER_SIZE ->
  spec_trim (c_str data) <> [] ->
  handleCommand_cmd data
  = Some (if bool_decide (head (spec_trim (c_str data)) = Some "<")
          then spec_trim (c_str data)
          else "<" :: spec_trim (c_str data) ++ [">"]).
Proof.
  intros H0 Hmax Hne. rewrite handleCommand_cmd_spec.
  rewrite (proj2 (spec_rejects_length_false data)) by (split; assumption).
  now apply spec_bracket_Some.
Qed.

Section Frames.

Context {IState : Type} (parse : IState -> list byte -> IState * list byte).

Lemma handleCommand_parsed (tr : Transport) (client : ClientId)
    (data cmd : list byte) (ist : IState) :
  handleCommand_cmd data = Some cmd ->
  exists out, handleCommand parse tr client data ist
              = (fst (parse ist cmd), Parse cmd :: out).
Proof.
  intros Hcmd. unfold handleCommand. rewrite Hcmd.
  destruct (parse ist cmd) as [ist' answer].
  destruct (write_buf tr answer (WebSocketPrint_new (Some client))) as [w out1].
  destruct (flush tr w) as [w' out2]. now exists (out1 ++ out2).
Qed.






(** C7 (amended). For every frame within the length limit, let X be its text
    up to the first NUL byte (the whole frame when it has none) with leading
    and trailing whitespace removed.  If X is not empty, [handleCommand] hands
    the parser X unchanged when X starts with [<], and [<] X [>] otherwise.
    On a frame without NUL bytes this is the normalizer of the design. *)
Theorem C7_bracketing (tr : Transport) (client : ClientId)
    (data : list byte) (ist : IState) :
  let X := spec_trim (c_str data) in
  let cmd := if bool_decide (head X = Some "<") then X else "<" :: X ++ [">"] in
  length data <> 0 -> length data <= WS_COMMAND_BUFFER_SIZE -> X <> [] ->
  handleCommand_cmd data = Some cmd /\
  (exists out, handleCommand parse tr client data ist
               = (fst (parse ist cmd), Parse cmd :: out)) /\
  (no_nul data ->
   X = spec_trim data /\ handleCommand_cmd data = spec_normalize data).
Proof.
  intros X cmd H0 Hmax Hne.
  assert (Hcmd : handleCommand_cmd data = Some cmd)
    by now apply handleCommand_cmd_accepts.
  split; [exact Hcmd|]. split.
  - now apply handleCommand_parsed.
  - intros Hnul. subst X. rewrite handleCommand_cmd_spec. unfold spec_normalize.
    now rewrite (c_str_no_nul data Hnul).
Qed.

(** C8 (amended). [handleCommand] returns before parsing exactly when the
    frame has length zero, is longer than the maximum, or its text up to the
    first NUL byte (the whole frame when it has none) trims to the empty
    string; the frame is then dropped with no action at all and no change of
    state.  A frame of exactly the maximum length whose text does not trim to
    the empty string is parsed. *)
Theorem C8_dropped_frames (tr : Transport) (client : ClientId)
    (data : list byte) (s : Bridge * IState) :
  (handleCommand_cmd data = None
   <-> length data = 0 \/ WS_COMMAND_BUFFER_SIZE < length data
       \/ spec_trim (c_str data) = []) /\
  (handleCommand_cmd data = None ->
   onWebSocketEvent parse tr client WS_EVT_DATA data s = (s, [])) /\
  (length data = WS_COMMAND_BUFFER_SIZE -> spec_trim (c_str data) <> [] ->
   exists cmd out,
     handleCommand_cmd data = Some cmd /\
     snd (onWebSocketEvent parse tr client WS_EVT_DATA data s) = Parse cmd :: out).
Proof.
  split; [|split].
  - rewrite handleCommand_cmd_spec.
    destruct (spec_rejects_length data) eqn:Hrej.
    + split; [|reflexivity]. intros _.
      unfold spec_rejects_length in Hrej. apply orb_true_iff in Hrej.
      rewrite !bool_decide_eq_true in Hrej. tauto.
    + apply spec_rejects_length_false in Hrej. rewrite spec_bracket_None.
      split; [tauto|]. intros [H|[H|H]]; [lia | lia | exact H].
  - intros Hnone. destruct s as [st ist]. unfold onWebSocketEvent, handleCommand.
    now rewrite Hnone.
  - intros Hlen Hne.
    set (cmd := if bool_decide (head (spec_trim (c_str data)) = Some "<")
                then spec_trim (c_str data)
                else "<" :: spec_trim (c_str data) ++ [">"]).
    assert (Hcmd : handleCommand_cmd data = Some cmd).
    { apply handleCommand_cmd_accepts; [| |assumption];
        unfold WS_COMMAND_BUFFER_SIZE in *; lia. }
    destruct s as [st ist].
    destruct (handleCommand_parsed tr client data cmd ist Hcmd) as [out Hout].
    exists cmd, out. split; [exact Hcmd|].
    unfold onWebSocketEvent. now rewrite Hout.
Qed.

End Frames.



Lemma C7_bracketing_witness :
  length (bytes " status" ++ [x0a]) <> 0 /\
  length (bytes " status" ++ [x0a]) <= WS_COMMAND_BUFFER_SIZE /\
  spec_trim (c_str (bytes " status" ++ [x0a])) = bytes "status" /\
  handleCommand_cmd (bytes " status" ++ [x0a]) = Some (bytes "<status>") /\
  handleCommand_cmd (bytes " <R> ") = Some (bytes "<R>").
Proof.
  split; [vm_compute; discriminate|]. split; [vm_compute; lia|].
  split; [vm_compute; reflexivity|]. split.
  - refine (proj1 (C7_bracketing echo_parse all_connected 1%N
                     (bytes " status" ++ [x0a]) tt _ _ _)).
    + vm_compute; discriminate.
    + vm_compute; lia.
    + vm_compute; discriminate.
  - refine (proj1 (C7_bracketing echo_parse all_connected 1%N
                     (bytes " <R> ") tt _ _ _)).
    + vm_compute; discriminate.
    + vm_compute; lia.
    + vm_compute; discriminate.
Defined.

(** C7 as stated fails on a frame that holds a NUL byte: the frame is trimmed,
    not empty, within the limit and does not start with [<], yet what is
    handed on is not the frame between brackets but its text before the NUL. *)
Lemma C7_counterexample :
  length ["a"; x00; "b"] <= WS_COMMAND_BUFFER_SIZE /\
  spec_trim ["a"; x00; "b"] = ["a"; x00; "b"] /\
  spec_normalize ["a"; x00; "b"] = Some ["<"; "a"; x00; "b"; ">"] /\
  handleCommand_cmd ["a"; x00; "b"] = Some ["<"; "a"; ">"].
Proof.
  split; [vm_compute; lia|]. repeat split; vm_compute; reflexivity.
Qed.

Lemma C8_dropped_frames_witness :
  handleCommand_cmd (bytes "   ") = None /\
  onWebSocketEvent echo_parse all_connected 1%N WS_EVT_DATA (bytes "   ")
    (Bridge_init, tt) = ((Bridge_init, tt), []) /\
  length (replicate 128 "a") = WS_COMMAND_BUFFER_SIZE /\
  exists cmd out,
    handleCommand_cmd (replicate 128 "a") = Some cmd /\
    snd (onWebSocketEvent echo_parse all_connected 1%N WS_EVT_DATA
           (replicate 128 "a") (Bridge_init, tt)) = Parse cmd :: out.
Proof.
  assert (Hnone : handleCommand_cmd (bytes "   ") = None).
  { apply (proj1 (C8_dropped_frames echo_parse all_connected 1%N (bytes "   ")
                    (Bridge_init, tt))).
    right. right. vm_compute. reflexivity. }
  split; [exact Hnone|]. split.
  - exact (proj1 (proj2 (C8_dropped_frames echo_parse all_connected 1%N
                           (bytes "   ") (Bridge_init, tt))) Hnone).
  - split; [reflexivity|].
    apply (proj2 (proj2 (C8_dropped_frames echo_parse all_connected 1%N
                           (replicate 128 "a") (Bridge_init, tt)))).
    + reflexivity.
    + vm_compute. discriminate.
Defined.

(** C8 as stated fails on a frame whose text ends at a NUL byte before any
    visible character: the frame has three bytes and does not trim to the
    empty string, yet it is dropped. *)
Lemma C8_counterexample :
  length [" "; x00; "s"] <> 0 /\
  length [" "; x00; "s"] <= WS_COMMAND_BUFFER_SIZE /\
  spec_trim [" "; x00; "s"] = [x00; "s"] /\
  spec_normalize [" "; x00; "s"] = Some ["<"; x00; "s"; ">"] /\
  handleCommand_cmd [" "; x00; "s"] = None.
Proof.
  split; [vm_compute; discriminate|]. split; [vm_compute; lia|].
  repeat split; vm_compute; reflexivity.
Qed.

(** ** Admission *)

Section Admission.

Context {IState : Type} (parse : IState -> list byte -> IState * list byte).

Lemma uint8_small (z : Z) : (0 <= z < 256)%Z -> uint8 z = z.
Proof. intros Hz. unfold uint8. now apply Z.mod_small. Qed.

Ltac count_lia := unfold count_in_bounds, WS_MAX_CLIENTS in *; simpl in *; lia.

(** What one callback does to the count, for a count within its bounds. *)
Lemma on_event_count (e : Event) (s : Bridge * IState) :
  count_in_bounds (fst s) ->
  clientCount (fst (fst (on_event parse e s)))
  = match ev_type e with
    | WS_EVT_CONNECT =>
        if bool_decide (clientCount (fst s) < WS_MAX_CLIENTS)%Z
        then (clientCount (fst s) + 1)%Z else clientCount (fst s)
    | WS_EVT_DISCONNECT =>
        if bool_decide (0 < clientCount (fst s))%Z
        then (clientCount (fst s) - 1)%Z else clientCount (fst s)
    | _ => clientCount (fst s)
    end.
Proof.
  destruct s as [st ist]. intros Hb. cbn [fst] in *.
  unfold on_event, onWebSocketEvent. destruct (ev_type e).
  - destruct (decide (clientCount st < WS_MAX_CLIENTS)%Z) as [Hlt|Hge].
    + rewrite bool_decide_eq_false_2 by lia.
      rewrite bool_decide_eq_true_2 by assumption. cbn.
      apply uint8_small. count_lia.
    + rewrite bool_decide_eq_true_2 by lia.
      now rewrite bool_decide_eq_false_2 by assumption.
  - destruct (bool_decide (0 < clientCount st)%Z) eqn:Hpos; [|reflexivity].
    apply bool_decide_eq_true in Hpos. cbn. apply uint8_small. count_lia.
  - destruct (handleCommand parse _ _ _ ist). reflexivity.
  - reflexivity.
  - reflexivity.
Qed.

Lemma on_event_in_bounds (e : Event) (s : Bridge * IState) :
  count_in_bounds (fst s) -> count_in_bounds (fst (fst (on_event parse e s))).
Proof.
  intros Hb. unfold count_in_bounds at 1. rewrite on_event_count by assumption.
  destruct (ev_type e); repeat case_bool_decide; count_lia.
Qed.

Lemma run_in_bounds (es : list Event) (s : Bridge * IState) :
  count_in_bounds (fst s) -> count_in_bounds (fst (fst (run parse es s))).
Proof.
  revert s. induction es as [|e es IH]; intros s Hb; simpl; [assumption|].
  pose proof (on_event_in_bounds e s Hb) as Hb1.
  destruct (on_event parse e s) as [s1 out1]. specialize (IH s1 Hb1).
  destruct (run parse es s1) as [s2 out2]. exact IH.
Qed.

(** C1. For every sequence of callbacks, started with the count within
    [0, WS_MAX_CLIENTS], the count is within [0, WS_MAX_CLIENTS] after every
    prefix of the sequence; at each point a connect adds one exactly when the
    count is below the ceiling, a disconnect takes one off exactly when the
    count is above zero, and no other callback changes the count. *)
Theorem C1_count_within_ceiling (es : list Event) (s0 : Bridge * IState) :
  count_in_bounds (fst s0) ->
  forall k,
    let s := fst (run parse (take k es) s0) in
    (0 <= clientCount (fst s) <= WS_MAX_CLIENTS)%Z /\
    forall e, es !! k = Some e ->
      clientCount (fst (fst (on_event parse e s)))
      = match ev_type e with
        | WS_EVT_CONNECT =>
            if bool_decide (clientCount (fst s) < WS_MAX_CLIENTS)%Z
            then (clientCount (fst s) + 1)%Z else clientCount (fst s)
        | WS_EVT_DISCONNECT =>
            if bool_decide (0 < clientCount (fst s))%Z
            then (clientCount (fst s) - 1)%Z else clientCount (fst s)
        | _ => clientCount (fst s)
        end.
Proof.
  intros Hb k s.
  assert (Hs : count_in_bounds (fst s)) by now apply run_in_bounds.
  split; [exact Hs|]. intros e _. now apply on_event_count.
Qed.

(** C2. A connect that arrives while the count equals the ceiling leaves the
    state as it is, sends the client the rejection notice and then closes the
    connection; a connect that arrives while the count is below the ceiling
    adds one to the count and sends the client the welcome text, which is
    the opening part, the decimal digits of the client id, which read back as
    that id, and a closing brace. *)
Theorem C2_admission (tr : Transport) (client : ClientId) (data : list byte)
    (st : Bridge) (ist : IState) :
  (clientCount st = WS_MAX_CLIENTS ->
   onWebSocketEvent parse tr client WS_EVT_CONNECT data (st, ist)
   = ((st, ist), [Text client reject_notice; Close client])) /\
  ((0 <= clientCount st < WS_MAX_CLIENTS)%Z ->
   onWebSocketEvent parse tr client WS_EVT_CONNECT data (st, ist)
   = ((set_clientCount (clientCount st + 1) st, ist),
      [Text client (welcome client)])) /\
  (reject_notice
   = bytes ("{" ++ String "034" "error" ++ String "034" ":"
              ++ String "034" "Max clients reached" ++ String "034" "}")%string) /\
  (welcome client
   = bytes ("{" ++ String "034" "connected" ++ String "034" ":true,"
              ++ String "034" "clientId" ++ String "034" ":")%string
       ++ (String_of_uint client ++ bytes "}")) /\
  (String_of_uint client <> [] /\
   option_map N.of_uint
     (NilEmpty.uint_of_string (string_of_list_byte (String_of_uint client)))
   = Some client).
Proof.
  assert (Hread : option_map N.of_uint
                    (NilEmpty.uint_of_string
                       (string_of_list_byte (String_of_uint client)))
                  = Some client).
  { unfold String_of_uint, bytes.
    rewrite string_of_list_byte_of_string, NilEmpty.usu. cbn [option_map].
    now rewrite Unsigned.of_to. }
  split; [|split; [|split; [|split; [|split]]]].
  - intros Hfull. unfold onWebSocketEvent.
    now rewrite bool_decide_eq_true_2 by lia.
  - intros Hbelow. unfold onWebSocketEvent.
    rewrite bool_decide_eq_false_2 by lia.
    rewrite uint8_small by (unfold WS_MAX_CLIENTS in *; lia). reflexivity.
  - reflexivity.
  - reflexivity.
  - intros Hnil. rewrite Hnil in Hread. cbn in Hread.
    injection Hread as <-. discriminate Hnil.
  - exact Hread.
Qed.

(** C10. A disconnect takes one off a positive count whichever client it is
    for, admitted or not.  So after five clients are admitted, a sixth is
    rejected at the ceiling, and the disconnect of that sixth client arrives,
    the count is four while the five admitted clients are all still
    connected: one less than their number. *)
Theorem C10_rejected_client_is_counted_out (ist : IState) :
  (forall tr client data st,
     (0 < clientCount st < 256)%Z ->
     onWebSocketEvent parse tr client WS_EVT_DISCONNECT data (st, ist)
     = ((set_clientCount (clientCount st - 1) st, ist), [])) /\
  (let final := run_tracking parse rejected_then_closed (Bridge_init, ist) ∅ in
   messages (snd (run parse (take 6 rejected_then_closed) (Bridge_init, ist)))
   !! 5 = Some (6%N, reject_notice) /\
   snd final = ({[1%N; 2%N; 3%N; 4%N; 5%N]} : gset ClientId) /\
   size (snd final) = 5 /\
   clientCount (fst (fst final)) = 4%Z /\
   clientCount (fst (fst final)) = (Z.of_nat (size (snd final)) - 1)%Z).
Proof.
  split.
  - intros tr client data st Hpos. unfold onWebSocketEvent.
    rewrite bool_decide_eq_true_2 by lia.
    now rewrite uint8_small by lia.
  - cbv zeta.
    assert (Hset : snd (run_tracking parse rejected_then_closed (Bridge_init, ist) ∅)
                   = ({[1%N; 2%N; 3%N; 4%N; 5%N]} : gset ClientId)).
    { cbn. apply set_eq. intros x. set_solver. }
    assert (Hcount : clientCount
                       (fst (fst (run_tracking parse rejected_then_closed
                                    (Bridge_init, ist) ∅))) = 4%Z)
      by reflexivity.
    assert (Hsize : size ({[1%N; 2%N; 3%N; 4%N; 5%N]} : gset ClientId) = 5)
      by (vm_compute; reflexivity).
    split; [reflexivity|]. split; [exact Hset|].
    rewrite Hset, Hcount, Hsize. repeat split.
Qed.

End Admission.

Lemma C1_count_within_ceiling_witness :
  count_in_bounds (fst (Bridge_init, tt)) /\
  (0 <= clientCount
          (fst (fst (run echo_parse (take 6 rejected_then_closed) (Bridge_init, tt))))
     <= WS_MAX_CLIENTS)%Z /\
  clientCount
    (fst (fst (on_event echo_parse (event 6%N WS_EVT_DISCONNECT [])
                 (fst (run echo_parse (take 6 rejected_then_closed)
                         (Bridge_init, tt))))))
  = 4%Z.
Proof.
  assert (Hb : count_in_bounds (fst (Bridge_init, tt)))
    by (unfold count_in_bounds; simpl; unfold WS_MAX_CLIENTS; lia).
  pose proof (C1_count_within_ceiling echo_parse rejected_then_closed
                (Bridge_init, tt) Hb 6) as [Hin Hstep].
  split; [exact Hb|]. split; [exact Hin|].
  exact (Hstep (event 6%N WS_EVT_DISCONNECT []) eq_refl).
Defined.

Lemma C2_admission_witness :
  clientCount (set_clientCount 5 Bridge_init) = WS_MAX_CLIENTS /\
  onWebSocketEvent echo_parse all_connected 9%N WS_EVT_CONNECT []
    (set_clientCount 5 Bridge_init, tt)
  = ((set_clientCount 5 Bridge_init, tt),
     [Text 9%N
        (bytes ("{" ++ String "034" "error" ++ String "034" ":"
                  ++ String "034" "Max clients reached" ++ String "034" "}")%string);
      Close 9%N]) /\
  (0 <= clientCount Bridge_init < WS_MAX_CLIENTS)%Z /\
  onWebSocketEvent echo_parse all_connected 9%N WS_EVT_CONNECT [] (Bridge_init, tt)
  = ((set_clientCount 1 Bridge_init, tt),
     [Text 9%N
        (bytes ("{" ++ String "034" "connected" ++ String "034" ":true,"
                  ++ String "034" "clientId" ++ String "034" ":9}")%string)]) /\
  welcome 1203%N
  = bytes ("{" ++ String "034" "connected" ++ String "034" ":true,"
             ++ String "034" "clientId" ++ String "034" ":1203}")%string /\
  option_map N.of_uint
    (NilEmpty.uint_of_string (string_of_list_byte (String_of_uint 1203%N)))
  = Some 1203%N.
Proof.
  assert (Hbelow : (0 <= clientCount Bridge_init < WS_MAX_CLIENTS)%Z)
    by (simpl; unfold WS_MAX_CLIENTS; lia).
  pose proof (C2_admission echo_parse all_connected 9%N []
                (set_clientCount 5 Bridge_init) tt) as (Hfull & _).
  pose proof (C2_admission echo_parse all_connected 9%N [] Bridge_init tt)
    as (_ & Hadmit & _).
  pose proof (C2_admission echo_parse all_connected 1203%N [] Bridge_init tt)
    as (_ & _ & _ & Htext & _ & Hread).
  split; [reflexivity|]. split; [exact (eq_trans (Hfull eq_refl) eq_refl)|].
  split; [exact Hbelow|]. split; [exact (eq_trans (Hadmit Hbelow) eq_refl)|].
  split; [exact (eq_trans Htext eq_refl) | exact Hread].
Defined.

Lemma C10_rejected_client_is_counted_out_witness :
  (0 < clientCount (set_clientCount 5 Bridge_init) < 256)%Z /\
  onWebSocketEvent echo_parse all_connected 6%N WS_EVT_DISCONNECT []
    (set_clientCount 5 Bridge_init, tt)
  = ((set_clientCount 4 Bridge_init, tt), []).
Proof.
  assert (Hpos : (0 < clientCount (set_clientCount 5 Bridge_init) < 256)%Z)
    by (simpl; lia).
  split; [exact Hpos|].
  exact (proj1 (C10_rejected_client_is_counted_out echo_parse tt)
           all_connected 6%N [] (set_clientCount 5 Bridge_init) Hpos).
Defined.

(** ** Start-up *)

Section Lifecycle.

Context {IState : Type} (parse : IState -> list byte -> IState * list byte).

(** C4 (amended). A failed mount of the static-asset storage ends [setup]
    before the server and the socket are created: the state is left as it
    was, so from the initial state the bridge is not enabled, the transport
    has no handler to call and no callback reaches the bridge, [loop] does
    nothing and [broadcast] sends nothing.  After a mount that succeeds the
    bridge is enabled and every callback reaches the handler. *)
Theorem C4_failed_mount_stops_setup (index_exists : bool) (st : Bridge) :
  setup false index_exists st = st /\
  (let off := setup false index_exists Bridge_init in
   isEnabled off = false /\ serving off = false /\
   (forall e ist, deliver parse e (off, ist) = ((off, ist), [])) /\
   (forall now now', loop now now' off = (off, [])) /\
   (forall message, broadcast message off = [])) /\
  (let on := setup true index_exists st in
   isEnabled on = true /\ serving on = true /\
   clientCount on = clientCount st /\
   forall e ist, deliver parse e (on, ist) = on_event parse e (on, ist)).
Proof.
  split; [reflexivity|]. split.
  - cbv zeta. repeat split.
  - cbv zeta. repeat split.
Qed.

End Lifecycle.

(** C4 as stated fails: after a failed mount the bridge is not enabled, a
    connecting client is neither counted nor welcomed, and a broadcast sends
    nothing, while after a successful mount the client is welcomed and the
    broadcast goes out. *)
Lemma C4_counterexample :
  let off := setup false true Bridge_init in
  let on := setup true true Bridge_init in
  let connect := event 1%N WS_EVT_CONNECT [] in
  isEnabled off = false /\ isEnabled on = true /\
  snd (deliver echo_parse connect (off, tt)) = [] /\
  snd (deliver echo_parse connect (on, tt)) = [Text 1%N (welcome 1%N)] /\
  broadcast (bytes "TRACK POWER OFF")
    (fst (fst (deliver echo_parse connect (off, tt)))) = [] /\
  broadcast (bytes "TRACK POWER OFF")
    (fst (fst (deliver echo_parse connect (on, tt))))
  = [TextAll (bytes "TRACK POWER OFF")].
Proof. cbv zeta. repeat split. Qed.

(** * Further properties *)

(** ** The response stream, whatever the connection does *)

Lemma stream_ok_new (c : option ClientId) : stream_ok (WebSocketPrint_new c).
Proof. split; [reflexivity | unfold BUFFER_SIZE; simpl; lia]. Qed.

Lemma stream_ok_flush (tr : Transport) (w : WebSocketPrint) :
  stream_ok w -> stream_ok (fst (flush tr w)).
Proof.
  intros Hok. unfold flush. destruct (client w); [|exact Hok].
  destruct (bool_decide (0 < pos w) && connected tr (Some c)); [|exact Hok].
  split; [reflexivity | unfold BUFFER_SIZE; simpl; lia].
Qed.

Lemma stream_ok_write (tr : Transport) (x : byte) (w : WebSocketPrint) :
  stream_ok w -> stream_ok (fst (write tr x w)).
Proof.
  intros [Hlen Hpos]. unfold write.
  destruct (bool_decide (pos w < BUFFER_SIZE - 1)) eqn:Hroom; [|now split].
  apply bool_decide_eq_true in Hroom. cbv zeta.
  assert (Hok1 : stream_ok {| client := client w;
                              buffer := <[pos w := x]> (buffer w);
                              pos := S (pos w) |}).
  { split; cbn [buffer pos]; [now rewrite length_insert | lia]. }
  match goal with |- context [if ?b then _ else _] => destruct b end;
    [now apply stream_ok_flush | exact Hok1].
Qed.

(** X1. A stream whose buffer has its 256 bytes and whose cursor is inside it,
    as the constructor leaves it, stays so under every write, block write and
    flush, whatever the connection's status is at each call: the terminator
    that [flush] stores at the cursor is always inside the buffer. *)
Theorem X1_stream_stays_in_bounds (tr : Transport) (w : WebSocketPrint) :
  stream_ok w ->
  (forall x, stream_ok (fst (write tr x w))) /\
  (forall bs, stream_ok (fst (write_buf tr bs w))) /\
  stream_ok (fst (flush tr w)) /\
  pos w < length (buffer w).
Proof.
  intros Hok. split; [|split; [|split]].
  - intros x. now apply stream_ok_write.
  - intros bs. revert w Hok. induction bs as [|x bs IH]; intros w Hok; simpl.
    + exact Hok.
    + pose proof (stream_ok_write tr x w Hok) as Hok1.
      destruct (write tr x w) as [w1 o1]. specialize (IH w1 Hok1).
      destruct (write_buf tr bs w1) as [w2 o2]. exact IH.
  - now apply stream_ok_flush.
  - destruct Hok as [-> Hpos]. exact Hpos.
Qed.

Lemma X1_stream_stays_in_bounds_witness :
  stream_ok (WebSocketPrint_new (Some 1%N)) /\
  stream_ok (fst (write_buf all_disconnected (replicate 300 "a")
                    (WebSocketPrint_new (Some 1%N)))).
Proof.
  pose proof (X1_stream_stays_in_bounds all_disconnected
                (WebSocketPrint_new (Some 1%N)) (stream_ok_new _))
    as (_ & Hbuf & _).
  split; [apply stream_ok_new | exact (Hbuf (replicate 300 "a"))].
Defined.

Lemma write_holding_stale (tr : Transport) (c : option ClientId)
    (pend : list byte) (x : byte) :
  connected tr c = false -> length pend <= BUFFER_SIZE - 1 ->
  write tr x (holding c pend)
  = (holding c (take (BUFFER_SIZE - 1) (pend ++ [x])), []).
Proof.
  intros Hdead Hlen. unfold write.
  change (pos (holding c pend)) with (length pend).
  change (client (holding c pend)) with c.
  destruct (decide (length pend < BUFFER_SIZE - 1)) as [Hroom|Hfull].
  - rewrite bool_decide_eq_true_2 by assumption. cbv zeta.
    rewrite holding_snoc by (unfold BUFFER_SIZE in *; lia).
    rewrite take_ge by (rewrite length_app; cbn [length]; lia).
    match goal with |- context [if ?b then _ else _] => destruct b end;
      [|reflexivity].
    now apply flush_stale.
  - rewrite bool_decide_eq_false_2 by assumption.
    rewrite take_app_le by lia. rewrite take_ge by lia. reflexivity.
Qed.

Lemma write_buf_holding_stale (tr : Transport) (c : option ClientId)
    (bs pend : list byte) :
  connected tr c = false -> length pend <= BUFFER_SIZE - 1 ->
  write_buf tr bs (holding c pend)
  = (holding c (take (BUFFER_SIZE - 1) (pend ++ bs)), []).
Proof.
  intros Hdead. revert pend.
  induction bs as [|x bs IH]; intros pend Hlen; cbn [write_buf].
  - rewrite app_nil_r. now rewrite take_ge by lia.
  - rewrite write_holding_stale by assumption.
    rewrite IH by (rewrite length_take; lia). cbn [app]. do 2 f_equal.
    destruct (decide (length pend < BUFFER_SIZE - 1)) as [Hroom|Hfull].
    + rewrite (take_ge (pend ++ [x])) by (rewrite length_app; cbn [length]; lia).
      rewrite <- app_assoc. reflexivity.
    + rewrite !(take_app_le pend) by lia. rewrite (take_ge pend) by lia.
      rewrite take_app_le by lia. now rewrite take_ge by lia.
Qed.

(** X2. On a connection that is not live the stream sends nothing and keeps
    only the first 255 bytes written to it: the cursor stops at 255 and
    every later byte is dropped. *)
Theorem X2_stale_stream_keeps_255 (tr : Transport) (c : option ClientId)
    (bs : list byte) :
  connected tr c = false ->
  write_buf tr bs (WebSocketPrint_new c)
  = (holding c (take (BUFFER_SIZE - 1) bs), []) /\
  pos (fst (write_buf tr bs (WebSocketPrint_new c))) = min (length bs) 255.
Proof.
  intros Hdead. rewrite new_holding.
  rewrite write_buf_holding_stale
    by (assumption || (unfold BUFFER_SIZE; cbn [length]; lia)).
  split; [reflexivity|]. cbn [fst holding pos app].
  rewrite length_take. unfold BUFFER_SIZE. lia.
Qed.

Lemma X2_stale_stream_keeps_255_witness :
  connected all_disconnected (Some 1%N) = false /\
  pos (fst (write_buf all_disconnected (replicate 300 "a")
              (WebSocketPrint_new (Some 1%N)))) = 255.
Proof.
  split; [reflexivity|].
  exact (proj2 (X2_stale_stream_keeps_255 all_disconnected (Some 1%N)
                  (replicate 300 "a") eq_refl)).
Defined.

Lemma c_str_prefix (l : list byte) : exists rest, l = c_str l ++ rest.
Proof.
  induction l as [|b l [rest IH]]; simpl.
  - now exists [].
  - destruct (decide (b = x00)).
    + now exists (b :: l).
    + exists rest. simpl. now rewrite <- IH.
Qed.

Lemma newline_only_last_c_str (l : list byte) :
  newline_only_last l -> newline_only_last (c_str l).
Proof.
  intros Hl k Hk. destruct (c_str_prefix l) as [rest Hrest].
  pose proof (lookup_lt_Some _ _ _ Hk) as Hlt.
  assert (Hin : l !! k = Some x0a)
    by (rewrite Hrest; now apply lookup_app_l_Some).
  specialize (Hl k Hin). pose proof (c_str_length l). lia.
Qed.

Lemma no_newline_lookup (l : list byte) (k : nat) :
  no_newline l -> l !! k <> Some x0a.
Proof.
  intros Hl Hk. unfold no_newline in Hl. rewrite Forall_forall in Hl.
  apply (Hl x0a); [|reflexivity].
  now apply list_elem_of_lookup_2 with k.
Qed.

Lemma split_out_shape (bs pend : list byte) :
  length pend < BUFFER_SIZE - 2 -> no_newline pend ->
  Forall (fun c => length c <= BUFFER_SIZE - 2 /\ newline_only_last c)
         (fst (split_out pend bs)) /\
  no_newline (snd (split_out pend bs)).
Proof.
  revert pend. induction bs as [|x bs IH]; intros pend Hlen Hnl; cbn [split_out].
  - split; [constructor | exact Hnl].
  - destruct (sends pend x) eqn:Hs.
    + destruct (IH [] ltac:(unfold BUFFER_SIZE; cbn [length]; lia)
                  ltac:(constructor)) as [Hc Hk].
      destruct (split_out [] bs) as [chunks kept]. cbn [fst snd] in *.
      split; [|exact Hk]. constructor; [|exact Hc]. split.
      * rewrite length_app. cbn [length]. lia.
      * intros k Hk'. rewrite length_app. cbn [length].
        apply lookup_snoc_Some in Hk' as [[_ Hin]|[-> _]]; [|lia].
        now apply no_newline_lookup in Hin.
    + unfold sends in Hs. apply orb_false_elim in Hs as [Hx Hfull].
      apply bool_decide_eq_false in Hx, Hfull.
      apply IH.
      * rewrite length_app. cbn [length]. lia.
      * apply Forall_app. split; [exact Hnl|]. now repeat constructor.
Qed.

Lemma closing_payload (i : ClientId) (kept m : list byte) :
  In m (payloads match kept with
                 | [] => []
                 | b :: l => [Text i (c_str (b :: l))]
                 end) ->
  m = c_str kept.
Proof.
  destruct kept as [|b kept]; [intros []|]. now intros [<-|[]].
Qed.

(** X3. Every message a live stream sends for one answer, the one of the
    closing flush included, has at most 254 bytes, holds no NUL byte, and
    holds a line feed at most as its last byte. *)
Theorem X3_message_shape (tr : Transport) (i : ClientId) (bs m : list byte) :
  tr i = WS_CONNECTED ->
  In m (payloads (fst (respond tr (Some i) bs) ++ snd (respond tr (Some i) bs))) ->
  length m <= BUFFER_SIZE - 2 /\ no_nul m /\ newline_only_last m.
Proof.
  intros Hlive. rewrite respond_live by assumption. cbn [fst snd].
  rewrite payloads_app, payloads_texts.
  destruct (split_out_shape bs [] ltac:(unfold BUFFER_SIZE; cbn [length]; lia)
              ltac:(constructor)) as [Hchunks Hkept].
  pose proof (split_out_left_lt bs [] ltac:(unfold BUFFER_SIZE; cbn [length]; lia))
    as Hlt.
  intros [Hin|Hin]%in_app_or.
  - apply in_map_iff in Hin as (c & <- & Hc).
    rewrite Forall_forall in Hchunks.
    destruct (Hchunks c) as [Hlen Hnl]; [now apply list_elem_of_In|].
    split; [|split].
    + pose proof (c_str_length c). lia.
    + apply c_str_is_no_nul.
    + now apply newline_only_last_c_str.
  - apply closing_payload in Hin as ->. split; [|split].
    + pose proof (c_str_length (snd (split_out [] bs))). lia.
    + apply c_str_is_no_nul.
    + apply newline_only_last_c_str. intros k Hk'.
      now apply no_newline_lookup in Hk'.
Qed.

Lemma X3_message_shape_witness :
  all_connected 1%N = WS_CONNECTED /\
  In (replicate 254 "a")
     (payloads (fst (respond all_connected (Some 1%N) (replicate 300 "a"))
                ++ snd (respond all_connected (Some 1%N) (replicate 300 "a")))) /\
  length (replicate 254 "a") <= BUFFER_SIZE - 2.
Proof.
  assert (Hin : In (replicate 254 "a")
                   (payloads (fst (respond all_connected (Some 1%N) (replicate 300 "a"))
                              ++ snd (respond all_connected (Some 1%N)
                                        (replicate 300 "a")))))
    by (vm_compute; left; reflexivity).
  split; [reflexivity|]. split; [exact Hin|].
  exact (proj1 (X3_message_shape all_connected 1%N (replicate 300 "a")
                  (replicate 254 "a") eq_refl Hin)).
Defined.

(** X4. Writing an answer in blocks, one [write(buf, size)] after another, does
    to the stream and sends exactly what writing the concatenated bytes in one
    block does: where the parser cuts its output does not show. *)
Theorem X4_blocks_compose (tr : Transport) (blocks : list (list byte))
    (w : WebSocketPrint) :
  write_blocks tr blocks w = write_buf tr (concat blocks) w.
Proof.
  revert w. induction blocks as [|buf blocks IH]; intros w; cbn [write_blocks concat].
  - reflexivity.
  - rewrite write_buf_app. destruct (write_buf tr buf w) as [w1 out1].
    now rewrite IH.
Qed.

(** X5. What [flush] sends for a stream with pending bytes is what
    [sendResponse] sends for the same client and text: the text up to its
    first NUL if the client is there and connected, nothing otherwise. *)
Theorem X5_flush_is_sendResponse (tr : Transport) (c : option ClientId)
    (pend : list byte) :
  pend <> [] -> length pend < BUFFER_SIZE ->
  snd (flush tr (holding c pend)) = sendResponse tr c pend.
Proof.
  intros Hne Hlen. unfold sendResponse. destruct c as [i|].
  - destruct (connected tr (Some i)) eqn:Hc.
    + rewrite flush_holding_live; [reflexivity| |assumption|assumption].
      unfold connected in Hc. now apply bool_decide_eq_true in Hc.
    + now rewrite flush_stale.
  - reflexivity.
Qed.

Lemma X5_flush_is_sendResponse_witness :
  bytes "ok" <> [] /\ length (bytes "ok") < BUFFER_SIZE /\
  snd (flush all_connected (holding (Some 1%N) (bytes "ok")))
  = sendResponse all_connected (Some 1%N) (bytes "ok").
Proof.
  assert (Hne : bytes "ok" <> []) by discriminate.
  assert (Hlen : length (bytes "ok") < BUFFER_SIZE) by (vm_compute; lia).
  split; [exact Hne|]. split; [exact Hlen|].
  exact (X5_flush_is_sendResponse all_connected (Some 1%N) (bytes "ok") Hne Hlen).
Defined.

(** ** One frame, from the handler's side *)

Lemma payloads_Parse (cmd : list byte) (acts : list Action) :
  payloads (Parse cmd :: acts) = payloads acts.
Proof. reflexivity. Qed.

Lemma respond_concat (tr : Transport) (i : ClientId) (bs : list byte) :
  tr i = WS_CONNECTED -> no_nul bs ->
  concat (payloads (fst (respond tr (Some i) bs) ++ snd (respond tr (Some i) bs)))
  = bs.
Proof.
  intros Hlive Hnul. rewrite respond_live by assumption. cbn [fst snd].
  rewrite payloads_app, payloads_texts, concat_app.
  pose proof (split_out_concat bs []) as Hcat. rewrite app_nil_l in Hcat.
  rewrite <- Hcat in Hnul. apply no_nul_app in Hnul as [Hc Hk].
  rewrite map_c_str_no_nul by assumption.
  rewrite <- Hcat at 3. f_equal.
  destruct (snd (split_out [] bs)) as [|b kept]; [reflexivity|].
  rewrite (c_str_no_nul (b :: kept)) by assumption.
  unfold payloads, messages. cbn. now rewrite app_nil_r.
Qed.

Lemma flush_to_client (tr : Transport) (w : WebSocketPrint) (i : ClientId) :
  client w = Some i ->
  client (fst (flush tr w)) = Some i /\
  exists texts, snd (flush tr w) = map (Text i) texts.
Proof.
  intros Hc. unfold flush. rewrite Hc.
  destruct (bool_decide (0 < pos w) && connected tr (Some i)).
  - split; [reflexivity|]. now eexists [_].
  - split; [exact Hc|]. now exists [].
Qed.

Lemma write_to_client (tr : Transport) (x : byte) (w : WebSocketPrint) (i : ClientId) :
  client w = Some i ->
  client (fst (write tr x w)) = Some i /\
  exists texts, snd (write tr x w) = map (Text i) texts.
Proof.
  intros Hc. unfold write.
  destruct (bool_decide (pos w < BUFFER_SIZE - 1));
    [|split; [exact Hc | now exists []]].
  cbv zeta.
  match goal with |- context [if ?b then _ else _] => destruct b end.
  - now apply flush_to_client.
  - split; [exact Hc | now exists []].
Qed.

Lemma write_buf_to_client (tr : Transport) (bs : list byte) (w : WebSocketPrint)
    (i : ClientId) :
  client w = Some i ->
  client (fst (write_buf tr bs w)) = Some i /\
  exists texts, snd (write_buf tr bs w) = map (Text i) texts.
Proof.
  revert w. induction bs as [|x bs IH]; intros w Hc; cbn [write_buf].
  - split; [exact Hc | now exists []].
  - destruct (write_to_client tr x w i Hc) as [Hc1 [t1 Ht1]].
    destruct (write tr x w) as [w1 o1]. cbn [fst snd] in *.
    destruct (IH w1 Hc1) as [Hc2 [t2 Ht2]].
    destruct (write_buf tr bs w1) as [w2 o2]. cbn [fst snd] in *.
    split; [exact Hc2|]. exists (t1 ++ t2). now rewrite map_app, Ht1, Ht2.
Qed.

Lemma handleCommand_cmd_facts (data cmd : list byte) :
  handleCommand_cmd data = Some cmd ->
  head cmd = Some "<" /\
  (forall c, last cmd = Some c -> is_space c = false) /\
  no_nul cmd /\
  length cmd <= length data + 2 /\
  length cmd <= WS_COMMAND_BUFFER_SIZE + 2.
Proof.
  intros Hcmd. rewrite handleCommand_cmd_spec in Hcmd.
  destruct (spec_rejects_length data) eqn:Hrej; [discriminate|].
  apply spec_rejects_length_false in Hrej as [_ Hmax].
  set (X := spec_trim (c_str data)) in *.
  assert (Hne : X <> []).
  { intros Hnil. apply spec_bracket_None in Hnil. congruence. }
  rewrite spec_bracket_Some in Hcmd by assumption. injection Hcmd as <-.
  assert (HX : no_nul X)
    by (apply spec_trim_right_no_nul, spec_trim_left_no_nul, c_str_is_no_nul).
  assert (HlenX : length X <= length data).
  { etransitivity; [apply spec_trim_right_length|].
    etransitivity; [apply spec_trim_left_length|]. apply c_str_length. }
  destruct (bool_decide (head X = Some "<")) eqn:Hb.
  - apply bool_decide_eq_true in Hb.
    split; [exact Hb|]. split; [apply spec_trim_last|]. split; [exact HX|]. lia.
  - split; [reflexivity|]. split; [|split].
    + intros c. rewrite app_comm_cons, last_snoc. now intros [= <-].
    + constructor; [discriminate|]. apply no_nul_app. split; [exact HX|].
      constructor; [discriminate | constructor].
    + cbn [length]. rewrite length_app. cbn [length]. lia.
Qed.

Section OneFrame.

Context {IState : Type} (parse : IState -> list byte -> IState * list byte).

Lemma handleCommand_respond (tr : Transport) (client : ClientId)
    (data cmd : list byte) (ist : IState) :
  handleCommand_cmd data = Some cmd ->
  handleCommand parse tr client data ist
  = (fst (parse ist cmd),
     Parse cmd :: fst (respond tr (Some client) (snd (parse ist cmd)))
       ++ snd (respond tr (Some client) (snd (parse ist cmd)))).
Proof.
  intros Hcmd. unfold handleCommand, respond. rewrite Hcmd.
  destruct (parse ist cmd) as [ist' answer]. cbn [fst snd].
  destruct (write_buf tr answer (WebSocketPrint_new (Some client))) as [w out1].
  destruct (flush tr w) as [w' out2]. reflexivity.
Qed.

(** X6. For every frame, [handleCommand] calls the parser at most once, before
    anything is sent, and everything it sends is text for the client the frame
    came from: it closes no connection, broadcasts nothing and addresses no
    other client. *)
Theorem X6_only_the_sender_is_answered (tr : Transport) (client : ClientId)
    (data : list byte) (ist : IState) :
  exists texts,
    snd (handleCommand parse tr client data ist)
    = match handleCommand_cmd data with
      | None => []
      | Some cmd => Parse cmd :: map (Text client) texts
      end.
Proof.
  unfold handleCommand. destruct (handleCommand_cmd data) as [cmd|];
    [|now exists []].
  destruct (parse ist cmd) as [ist' answer].
  destruct (write_buf_to_client tr answer (WebSocketPrint_new (Some client))
              client eq_refl) as [Hc [t1 Ht1]].
  destruct (write_buf tr answer (WebSocketPrint_new (Some client))) as [w out1].
  cbn [fst snd] in *.
  destruct (flush_to_client tr w client Hc) as [_ [t2 Ht2]].
  destruct (flush tr w) as [w' out2]. cbn [fst snd] in *.
  exists (t1 ++ t2). now rewrite map_app, Ht1, Ht2.
Qed.

(** X7. A frame from a client that is no longer connected is still parsed:
    the parser is called with the command and may change its state, and
    nothing at all is sent. *)
Theorem X7_stale_sender_is_still_parsed (tr : Transport) (client : ClientId)
    (data cmd : list byte) (ist : IState) :
  handleCommand_cmd data = Some cmd -> tr client <> WS_CONNECTED ->
  handleCommand parse tr client data ist = (fst (parse ist cmd), [Parse cmd]).
Proof.
  intros Hcmd Hdead. unfold handleCommand. rewrite Hcmd.
  destruct (parse ist cmd) as [ist' answer]. cbn [fst].
  assert (Hc : connected tr (Some client) = false)
    by (cbn; now apply bool_decide_eq_false).
  destruct (write_buf_stale tr answer (WebSocketPrint_new (Some client)) Hc)
    as [Hout Hcl].
  destruct (write_buf tr answer (WebSocketPrint_new (Some client))) as [w out1].
  cbn [fst snd] in *. subst out1.
  rewrite flush_stale by now rewrite Hcl. reflexivity.
Qed.

(** X8. For a frame that is parsed, from a connected client, with a parser
    answer free of NUL bytes: the messages sent to the client, in order,
    concatenate to exactly the bytes the parser wrote. *)
Theorem X8_answer_is_delivered (tr : Transport) (client : ClientId)
    (data cmd : list byte) (ist : IState) :
  handleCommand_cmd data = Some cmd -> tr client = WS_CONNECTED ->
  no_nul (snd (parse ist cmd)) ->
  concat (payloads (snd (handleCommand parse tr client data ist)))
  = snd (parse ist cmd).
Proof.
  intros Hcmd Hlive Hnul. rewrite (handleCommand_respond _ _ _ _ _ Hcmd).
  cbn [snd]. rewrite payloads_Parse. now apply respond_concat.
Qed.

End OneFrame.

Lemma X7_stale_sender_is_still_parsed_witness :
  handleCommand_cmd (bytes "1 3") = Some (bytes "<1 3>") /\
  all_disconnected 4%N <> WS_CONNECTED /\
  handleCommand echo_parse all_disconnected 4%N (bytes "1 3") tt
  = (tt, [Parse (bytes "<1 3>")]).
Proof.
  assert (Hcmd : handleCommand_cmd (bytes "1 3") = Some (bytes "<1 3>"))
    by (vm_compute; reflexivity).
  assert (Hdead : all_disconnected 4%N <> WS_CONNECTED) by discriminate.
  split; [exact Hcmd|]. split; [exact Hdead|].
  exact (X7_stale_sender_is_still_parsed echo_parse all_disconnected 4%N
           (bytes "1 3") (bytes "<1 3>") tt Hcmd Hdead).
Defined.

Lemma X8_answer_is_delivered_witness :
  handleCommand_cmd (bytes "1 3") = Some (bytes "<1 3>") /\
  all_connected 4%N = WS_CONNECTED /\
  no_nul (snd (echo_parse tt (bytes "<1 3>"))) /\
  concat (payloads (snd (handleCommand echo_parse all_connected 4%N (bytes "1 3") tt)))
  = bytes "<1 3>" ++ [x0a].
Proof.
  assert (Hcmd : handleCommand_cmd (bytes "1 3") = Some (bytes "<1 3>"))
    by (vm_compute; reflexivity).
  assert (Hnul : no_nul (snd (echo_parse tt (bytes "<1 3>"))))
    by (repeat constructor; discriminate).
  split; [exact Hcmd|]. split; [reflexivity|]. split; [exact Hnul|].
  exact (X8_answer_is_delivered echo_parse all_connected 4%N
           (bytes "1 3") (bytes "<1 3>") tt Hcmd eq_refl Hnul).
Defined.

(** ** The command text *)

Lemma all_space_no_nul (l : list byte) : all_space l -> no_nul l.
Proof.
  unfold all_space, no_nul. intros Hl.
  eapply Forall_impl; [exact Hl|]. intros c Hc. now apply is_space_not_nul.
Qed.

Lemma spec_trim_left_all_space (l : list byte) : all_space l -> spec_trim_left l = [].
Proof.
  induction 1 as [|c l Hc _ IH]; simpl; [reflexivity|]. now rewrite Hc.
Qed.

Lemma spec_trim_left_pad (a l : list byte) :
  all_space a -> spec_trim_left (a ++ l) = spec_trim_left l.
Proof.
  induction 1 as [|c a Hc _ IH]; simpl; [reflexivity|]. now rewrite Hc.
Qed.

Lemma spec_trim_right_pad (l b : list byte) :
  all_space b -> spec_trim_right (l ++ b) = spec_trim_right l.
Proof.
  intros Hb. unfold spec_trim_right. rewrite reverse_app.
  rewrite spec_trim_left_pad; [reflexivity|].
  unfold all_space. now apply Forall_reverse.
Qed.

Lemma spec_trim_pad_right (l b : list byte) :
  all_space b -> spec_trim (l ++ b) = spec_trim l.
Proof.
  intros Hb. unfold spec_trim. induction l as [|c l IH]; cbn [app spec_trim_left].
  - now rewrite spec_trim_left_all_space.
  - destruct (is_space c); [exact IH|].
    now rewrite app_comm_cons, spec_trim_right_pad.
Qed.

Lemma spec_trim_pad (a l b : list byte) :
  all_space a -> all_space b -> spec_trim (a ++ l ++ b) = spec_trim l.
Proof.
  intros Ha Hb. unfold spec_trim at 1. rewrite spec_trim_left_pad by assumption.
  fold (spec_trim (l ++ b)). now apply spec_trim_pad_right.
Qed.

Lemma c_str_app_no_nul (a l : list byte) :
  no_nul a -> c_str (a ++ l) = a ++ c_str l.
Proof.
  induction 1 as [|c a Hc _ IH]; simpl; [reflexivity|].
  destruct (decide (c = x00)); [contradiction | now rewrite IH].
Qed.

Lemma c_str_app_space (l b : list byte) :
  all_space b -> exists b', all_space b' /\ c_str (l ++ b) = c_str l ++ b'.
Proof.
  intros Hb. induction l as [|c l [b' [Hb' IH]]]; simpl.
  - exists b. split; [exact Hb|]. now apply c_str_no_nul, all_space_no_nul.
  - destruct (decide (c = x00)).
    + exists []. split; [constructor | reflexivity].
    + exists b'. split; [exact Hb'|]. simpl. now rewrite IH.
Qed.

Lemma spec_trim_fixed (l : list byte) :
  (forall c, head l = Some c -> is_space c = false) ->
  (forall c, last l = Some c -> is_space c = false) ->
  spec_trim l = l.
Proof.
  intros Hh Hl. unfold spec_trim.
  assert (Hleft : forall k : list byte,
             (forall c, head k = Some c -> is_space c = false) ->
             spec_trim_left k = k).
  { intros [|c k] Hk; [reflexivity|]. simpl. now rewrite (Hk c eq_refl). }
  rewrite (Hleft l Hh). unfold spec_trim_right.
  rewrite Hleft; [apply reverse_involutive|].
  intros c. rewrite head_reverse. apply Hl.
Qed.

(** X9. For every frame within the length limit [snprintf] never cuts the
    bracketed copy: what it stores in the 131-byte buffer is [<], the whole
    trimmed text, [>] and the terminator.  The trimmed text is no longer than
    the frame, and whatever [handleCommand] hands to the parser is not empty,
    holds no NUL byte and is either the whole trimmed text or the whole
    trimmed text between [<] and [>]. *)
Theorem X9_command_fits (data : list byte) :
  length data <= WS_COMMAND_BUFFER_SIZE ->
  let cmd := fst (trim_trailing (skip_leading (data ++ [x00]))
                    (strlen (skip_leading (data ++ [x00])))) in
  snprintf_bracketed (WS_COMMAND_BUFFER_SIZE + 3) cmd
  = ("<" :: c_str cmd ++ [">"]) ++ [x00] /\
  length (c_str cmd) <= length data /\
  forall out, handleCommand_cmd data = Some out ->
    out <> [] /\ no_nul out /\
    (out = c_str cmd \/ out = "<" :: c_str cmd ++ [">"]).
Proof.
  intros Hmax. cbv zeta.
  destruct (skip_leading_c_str data) as [tail Hskip]. rewrite Hskip.
  set (t := spec_trim_left (c_str data)).
  assert (Ht : no_nul t) by apply spec_trim_left_no_nul, c_str_is_no_nul.
  rewrite strlen_c_str, c_str_app_nul, (c_str_no_nul t Ht).
  destruct (trim_trailing_spec t tail) as [tail' ->]. cbn [fst].
  assert (HX : no_nul (spec_trim_right t)) by now apply spec_trim_right_no_nul.
  rewrite c_str_app_nul, (c_str_no_nul _ HX).
  assert (Hlen : length (spec_trim_right t) <= length data).
  { etransitivity; [apply spec_trim_right_length|].
    etransitivity; [apply spec_trim_left_length|]. apply c_str_length. }
  split; [|split; [exact Hlen|]].
  - unfold snprintf_bracketed. rewrite c_str_app_nul, (c_str_no_nul _ HX).
    rewrite take_ge; [reflexivity|].
    cbn [length]. rewrite length_app. cbn [length].
    unfold WS_COMMAND_BUFFER_SIZE in *. lia.
  - intros out Hout.
    destruct (handleCommand_cmd_facts data out Hout) as (Hh & _ & Hn & _ & _).
    split; [intros ->; discriminate|]. split; [exact Hn|].
    rewrite handleCommand_cmd_spec in Hout.
    destruct (spec_rejects_length data); [discriminate|].
    change (spec_trim (c_str data)) with (spec_trim_right t) in Hout.
    unfold spec_bracket in Hout.
    destruct (bool_decide (spec_trim_right t = [])); [discriminate|].
    destruct (bool_decide (head (spec_trim_right t) = Some "<"));
      injection Hout as <-; [now left | now right].
Qed.

Lemma X9_command_fits_witness :
  length (replicate 128 "a") <= WS_COMMAND_BUFFER_SIZE /\
  snprintf_bracketed (WS_COMMAND_BUFFER_SIZE + 3) (replicate 128 "a" ++ [x00])
  = ("<" :: replicate 128 "a" ++ [">"]) ++ [x00] /\
  handleCommand_cmd (replicate 128 "a")
  = Some ("<" :: replicate 128 "a" ++ [">"]).
Proof.
  assert (Hmax : length (replicate 128 "a") <= WS_COMMAND_BUFFER_SIZE)
    by (vm_compute; lia).
  pose proof (X9_command_fits (replicate 128 "a") Hmax) as (Hfit & _ & Hout).
  split; [exact Hmax|]. split; [exact (eq_trans Hfit eq_refl)|].
  destruct (handleCommand_cmd (replicate 128 "a")) as [out|] eqn:Hcmd;
    [|vm_compute in Hcmd; discriminate Hcmd].
  destruct (Hout out eq_refl) as (_ & _ & [Hplain|Hwrapped]).
  - exfalso. vm_compute in Hcmd. injection Hcmd as <-. vm_compute in Hplain.
    discriminate Hplain.
  - rewrite Hwrapped. reflexivity.
Defined.

(** X10. Normalizing is idempotent within the length limit: a command that
    [handleCommand] produced and that is itself at most 128 bytes long, sent
    back as a frame, is handed to the parser unchanged. *)
Theorem X10_normalizing_twice (data cmd : list byte) :
  handleCommand_cmd data = Some cmd ->
  length cmd <= WS_COMMAND_BUFFER_SIZE ->
  handleCommand_cmd cmd = Some cmd.
Proof.
  intros Hcmd Hlen.
  destruct (handleCommand_cmd_facts data cmd Hcmd) as (Hh & Hl & Hn & _ & _).
  assert (Hne : cmd <> []) by (intros ->; discriminate).
  rewrite handleCommand_cmd_spec.
  rewrite (proj2 (spec_rejects_length_false cmd))
    by (split; [destruct cmd; [congruence | discriminate] | exact Hlen]).
  rewrite (c_str_no_nul cmd Hn).
  rewrite spec_trim_fixed; [| |exact Hl].
  - unfold spec_bracket. rewrite bool_decide_eq_false_2 by assumption.
    now rewrite bool_decide_eq_true_2 by assumption.
  - intros c. rewrite Hh. now intros [= <-].
Qed.

Lemma X10_normalizing_twice_witness :
  handleCommand_cmd (bytes " status ") = Some (bytes "<status>") /\
  length (bytes "<status>") <= WS_COMMAND_BUFFER_SIZE /\
  handleCommand_cmd (bytes "<status>") = Some (bytes "<status>").
Proof.
  assert (Hcmd : handleCommand_cmd (bytes " status ") = Some (bytes "<status>"))
    by (vm_compute; reflexivity).
  assert (Hlen : length (bytes "<status>") <= WS_COMMAND_BUFFER_SIZE)
    by (vm_compute; lia).
  split; [exact Hcmd|]. split; [exact Hlen|].
  exact (X10_normalizing_twice _ _ Hcmd Hlen).
Defined.

(** X11. Spaces, line feeds and carriage returns around a frame do not matter:
    as long as the padded frame is within the length limit, it yields the same
    command, or is dropped the same way, as the frame without the padding. *)
Theorem X11_padding_is_ignored (before data after : list byte) :
  all_space before -> all_space after ->
  length (before ++ data ++ after) <= WS_COMMAND_BUFFER_SIZE ->
  handleCommand_cmd (before ++ data ++ after) = handleCommand_cmd data.
Proof.
  intros Ha Hb Hlen. rewrite !handleCommand_cmd_spec.
  assert (Htext : spec_trim (c_str (before ++ data ++ after))
                  = spec_trim (c_str data)).
  { rewrite c_str_app_no_nul by now apply all_space_no_nul.
    destruct (c_str_app_space data after Hb) as [b' [Hb' ->]].
    now apply spec_trim_pad. }
  rewrite Htext. rewrite !length_app in Hlen.
  destruct (spec_rejects_length data) eqn:Hd.
  - unfold spec_rejects_length in Hd. apply orb_true_iff in Hd.
    rewrite !bool_decide_eq_true in Hd. destruct Hd as [Hd|Hd]; [|lia].
    destruct data; [|discriminate]. cbn [c_str spec_trim].
    destruct (spec_rejects_length _); reflexivity.
  - apply spec_rejects_length_false in Hd.
    rewrite (proj2 (spec_rejects_length_false _)); [reflexivity|].
    rewrite !length_app. lia.
Qed.

Lemma X11_padding_is_ignored_witness :
  all_space [x0d; x0a] /\ all_space [" "] /\
  length ([x0d; x0a] ++ bytes "<R>" ++ [" "]) <= WS_COMMAND_BUFFER_SIZE /\
  handleCommand_cmd ([x0d; x0a] ++ bytes "<R>" ++ [" "])
  = handleCommand_cmd (bytes "<R>").
Proof.
  assert (Ha : all_space [x0d; x0a]) by (repeat constructor).
  assert (Hb : all_space [" "]) by (repeat constructor).
  assert (Hlen : length ([x0d; x0a] ++ bytes "<R>" ++ [" "])
                 <= WS_COMMAND_BUFFER_SIZE) by (vm_compute; lia).
  split; [exact Ha|]. split; [exact Hb|]. split; [exact Hlen|].
  exact (X11_padding_is_ignored [x0d; x0a] (bytes "<R>") [" "] Ha Hb Hlen).
Defined.

(** ** The two trimming loops *)

Lemma skip_leading_suffix (l : list byte) :
  exists skipped, l = skipped ++ skip_leading l /\ all_space skipped.
Proof.
  induction l as [|c l (skipped & Hl & Hs)]; cbn [skip_leading].
  - exists []. split; [reflexivity | constructor].
  - destruct (is_space c) eqn:Hc.
    + exists (c :: skipped). split; [cbn; now rewrite <- Hl|].
      now constructor.
    + exists []. split; [reflexivity | constructor].
Qed.

Lemma trim_trailing_bounds (n : nat) (cmd : list byte) :
  length (fst (trim_trailing cmd n)) = length cmd /\
  snd (trim_trailing cmd n) <= n.
Proof.
  revert cmd. induction n as [|n IH]; intros cmd; cbn [trim_trailing].
  - split; [reflexivity | cbn; lia].
  - destruct (cmd !! n) as [c|]; [|split; [reflexivity | cbn; lia]].
    destruct (is_space c); [|split; [reflexivity | cbn; lia]].
    destruct (IH (<[n := x00]> cmd)) as [Hlen Hle].
    rewrite length_insert in Hlen. split; [exact Hlen | lia].
Qed.

(** X12. For every frame the two trimming loops stay inside the terminated
    copy of the frame: the first loop passes over whitespace only and stops at
    the terminator at the latest, the second one keeps the buffer's size and
    only ever shortens the text, and afterwards the buffer holds a C string of
    exactly the length the code has computed. *)
Theorem X12_trimming_stays_in_buffer (data : list byte) :
  let command := data ++ [x00] in
  let cmd := skip_leading command in
  let trimmed := trim_trailing cmd (strlen cmd) in
  (exists skipped, command = skipped ++ cmd /\ all_space skipped) /\
  strlen cmd < length cmd /\
  length (fst trimmed) = length cmd /\
  snd trimmed <= strlen cmd /\
  strlen (fst trimmed) = snd trimmed.
Proof.
  cbv zeta. split; [apply skip_leading_suffix|].
  destruct (skip_leading_c_str data) as [tail Hskip]. rewrite Hskip.
  set (t := spec_trim_left (c_str data)).
  assert (Ht : no_nul t) by apply spec_trim_left_no_nul, c_str_is_no_nul.
  assert (Hstrlen : strlen (t ++ x00 :: tail) = length t)
    by now rewrite strlen_c_str, c_str_app_nul, c_str_no_nul.
  rewrite Hstrlen. split; [rewrite length_app; cbn [length]; lia|].
  destruct (trim_trailing_bounds (length t) (t ++ x00 :: tail)) as [Hlen Hle].
  split; [exact Hlen|]. split; [exact Hle|].
  destruct (trim_trailing_spec t tail) as [tail' ->]. cbn [fst snd].
  rewrite strlen_c_str, c_str_app_nul, c_str_no_nul; [reflexivity|].
  now apply spec_trim_right_no_nul.
Qed.

(** ** The bridge *)

Lemma uint32_elapsed (last elapsed : Z) :
  (0 <= elapsed < 2 ^ 32)%Z ->
  uint32 (uint32 (last + elapsed) - last) = elapsed.
Proof.
  intros He. unfold uint32. rewrite Zminus_mod_idemp_l.
  replace (last + elapsed - last)%Z with elapsed by lia.
  now apply Z.mod_small.
Qed.

(** X13. On an enabled bridge [loop] asks for a clean-up exactly when more
    than 1000 ms have passed since the last one, also when the 32-bit
    millisecond clock has wrapped around in between; it then records the new
    reading and never touches the count or the enabled flag. *)
Theorem X13_cleanup_interval (st : Bridge) (elapsed now' : Z) :
  enabled st = true -> is_Some (ws st) -> (0 <= elapsed < 2 ^ 32)%Z ->
  loop (uint32 (lastCleanup st + elapsed)) now' st
  = if bool_decide (1000 < elapsed)%Z
    then ({| webServer := webServer st; ws := ws st; enabled := enabled st;
             clientCount := clientCount st; lastCleanup := uint32 now' |},
          [CleanupClients])
    else (st, []).
Proof.
  intros Hen Hws He. unfold loop. rewrite Hen.
  rewrite bool_decide_eq_true_2 by assumption. cbn [negb orb].
  now rewrite uint32_elapsed by assumption.
Qed.

Lemma X13_cleanup_interval_witness :
  let st := {| webServer := webServer (setup true true Bridge_init);
               ws := ws (setup true true Bridge_init);
               enabled := true; clientCount := 0;
               lastCleanup := 4294967000 |} in
  enabled st = true /\ is_Some (ws st) /\ (0 <= 1001 < 2 ^ 32)%Z /\
  snd (loop 705 706 st) = [CleanupClients] /\
  lastCleanup (fst (loop 705 706 st)) = 706%Z.
Proof.
  cbv zeta.
  set (st := {| webServer := webServer (setup true true Bridge_init);
                ws := ws (setup true true Bridge_init);
                enabled := true; clientCount := 0;
                lastCleanup := 4294967000 |}).
  assert (Hws : is_Some (ws st)) by (eexists; reflexivity).
  assert (He : (0 <= 1001 < 2 ^ 32)%Z) by lia.
  pose proof (X13_cleanup_interval st 1001 706 eq_refl Hws He) as Hloop.
  change (uint32 (lastCleanup st + 1001)) with 705%Z in Hloop.
  split; [reflexivity|]. split; [exact Hws|]. split; [exact He|].
  rewrite Hloop. split; reflexivity.
Defined.

Lemma String_of_uint_inj (m n : N) : String_of_uint m = String_of_uint n -> m = n.
Proof.
  unfold String_of_uint, bytes. intros Heq.
  apply (f_equal string_of_list_byte) in Heq.
  rewrite !string_of_list_byte_of_string in Heq.
  apply (f_equal NilEmpty.uint_of_string) in Heq.
  rewrite !NilEmpty.usu in Heq. injection Heq as Heq.
  apply (f_equal N.of_uint) in Heq. now rewrite !Unsigned.of_to in Heq.
Qed.

(** X14. The welcome text tells the clients apart: two clients get the same
    welcome text only if they have the same id. *)
Theorem X14_welcome_names_the_client (i j : ClientId) :
  welcome i = welcome j -> i = j.
Proof.
  unfold welcome. intros Heq.
  repeat (apply app_inv_head in Heq).
  apply app_inv_tail in Heq. now apply String_of_uint_inj.
Qed.

Lemma X14_welcome_names_the_client_witness :
  welcome 12%N = welcome (5 + 7)%N /\ 12%N = (5 + 7)%N.
Proof.
  assert (Heq : welcome 12%N = welcome (5 + 7)%N) by reflexivity.
  split; [exact Heq|].
  exact (X14_welcome_names_the_client 12%N (5 + 7)%N Heq).
Defined.

Section Counting.

Context {IState : Type} (parse : IState -> list byte -> IState * list byte).

Lemma on_event_keeps_server (e : Event) (s : Bridge * IState) :
  enabled (fst (fst (on_event parse e s))) = enabled (fst s) /\
  ws (fst (fst (on_event parse e s))) = ws (fst s).
Proof.
  destruct s as [st ist]. unfold on_event, onWebSocketEvent.
  destruct (ev_type e); cbn [fst].
  - now destruct (bool_decide (WS_MAX_CLIENTS <= clientCount st)%Z).
  - now destruct (bool_decide (0 < clientCount st)%Z).
  - now destruct (handleCommand parse _ _ _ ist).
  - now split.
  - now split.
Qed.

(** On an orderly run the count follows the tracked set, and the server
    objects stay as they are. *)
Lemma run_tracking_orderly (es : list Event) (s : Bridge * IState)
    (adm : gset ClientId) :
  clientCount (fst s) = Z.of_nat (size adm) ->
  (clientCount (fst s) <= WS_MAX_CLIENTS)%Z ->
  orderly_run parse es s adm ->
  clientCount (fst (fst (run_tracking parse es s adm)))
  = Z.of_nat (size (snd (run_tracking parse es s adm))) /\
  enabled (fst (fst (run_tracking parse es s adm))) = enabled (fst s) /\
  ws (fst (fst (run_tracking parse es s adm))) = ws (fst s).
Proof.
  revert s adm. induction es as [|e es IH]; intros s adm Hcount Hmax Hord;
    cbn [run_tracking].
  - now repeat split.
  - destruct Hord as [Hstep Hrest].
    assert (Hb : count_in_bounds (fst s)) by (unfold count_in_bounds; lia).
    pose proof (on_event_count parse e s Hb) as Hnext.
    destruct (on_event_keeps_server e s) as [Hen Hws].
    rewrite <- Hen, <- Hws. apply IH; [| |exact Hrest].
    + rewrite Hnext. unfold tracked_step, orderly_step in *.
      destruct (ev_type e); try exact Hcount.
      * case_bool_decide; [|exact Hcount].
        rewrite size_union by now apply disjoint_singleton_r.
        rewrite size_singleton. lia.
      * assert (Hpos : 0 < size adm).
        { destruct (decide (size adm = 0)) as [H0|]; [|lia].
          apply size_empty_iff in H0. rewrite H0 in Hstep.
          now apply not_elem_of_empty in Hstep. }
        rewrite bool_decide_eq_true_2 by lia.
        rewrite size_difference by now apply singleton_subseteq_l.
        rewrite size_singleton. lia.
    + rewrite Hnext. destruct (ev_type e); repeat case_bool_decide; lia.
Qed.

(** X15. As long as every connect comes from a client that is not yet among
    the admitted ones and every disconnect from a client that is, the count
    equals the number of admitted clients that are still connected, on every
    run of callbacks. *)
Theorem X15_count_matches_admitted (es : list Event) (s : Bridge * IState)
    (adm : gset ClientId) :
  clientCount (fst s) = Z.of_nat (size adm) ->
  (clientCount (fst s) <= WS_MAX_CLIENTS)%Z ->
  orderly_run parse es s adm ->
  clientCount (fst (fst (run_tracking parse es s adm)))
  = Z.of_nat (size (snd (run_tracking parse es s adm))).
Proof.
  intros Hcount Hmax Hord.
  exact (proj1 (run_tracking_orderly es s adm Hcount Hmax Hord)).
Qed.

(** X16. After a successful [setup], on every orderly run of callbacks, a
    broadcast goes out, as one message to all with the text up to its first
    NUL, exactly when at least one admitted client is still connected; with
    none it sends nothing. *)
Theorem X16_broadcast_needs_a_client (index_exists : bool) (es : list Event)
    (ist : IState) (message : list byte) :
  let start := (setup true index_exists Bridge_init, ist) in
  orderly_run parse es start ∅ ->
  let final := run_tracking parse es start ∅ in
  broadcast message (fst (fst final))
  = if bool_decide (size (snd final) = 0) then [] else [TextAll (c_str message)].
Proof.
  intros start Hord final.
  assert (H0 : clientCount (fst start) = Z.of_nat (size (∅ : gset ClientId)))
    by reflexivity.
  assert (Hmax : (clientCount (fst start) <= WS_MAX_CLIENTS)%Z)
    by (cbn; unfold WS_MAX_CLIENTS; lia).
  destruct (run_tracking_orderly es start ∅ H0 Hmax Hord)
    as (Hcount & Hen & Hws).
  fold final in Hcount, Hen, Hws. unfold broadcast.
  rewrite Hen, Hws, Hcount. cbn [start fst setup negb enabled ws andb].
  rewrite (bool_decide_eq_true_2 (is_Some _)) by (eexists; reflexivity).
  cbn [andb]. repeat case_bool_decide; (reflexivity || lia).
Qed.

End Counting.

Lemma X15_count_matches_admitted_witness :
  clientCount (fst (Bridge_init, tt)) = Z.of_nat (size (∅ : gset ClientId)) /\
  orderly_run echo_parse (take 5 rejected_then_closed) (Bridge_init, tt) ∅ /\
  clientCount
    (fst (fst (run_tracking echo_parse (take 5 rejected_then_closed)
                 (Bridge_init, tt) ∅))) = 5%Z.
Proof.
  assert (H0 : clientCount (fst (Bridge_init, tt))
               = Z.of_nat (size (∅ : gset ClientId))) by reflexivity.
  assert (Hmax : (clientCount (fst (Bridge_init, tt)) <= WS_MAX_CLIENTS)%Z)
    by (cbn; unfold WS_MAX_CLIENTS; lia).
  assert (Hord : orderly_run echo_parse (take 5 rejected_then_closed)
                   (Bridge_init, tt) ∅).
  { cbn. repeat split; apply (bool_decide_unpack _); vm_compute; exact I. }
  pose proof (X15_count_matches_admitted echo_parse
                (take 5 rejected_then_closed) (Bridge_init, tt) ∅ H0 Hmax Hord)
    as Hcount.
  split; [exact H0|]. split; [exact Hord|]. exact Hcount.
Defined.

Lemma X16_broadcast_needs_a_client_witness :
  orderly_run echo_parse (take 5 rejected_then_closed)
    (setup true true Bridge_init, tt) ∅ /\
  broadcast (bytes "TRACK POWER OFF")
    (fst (fst (run_tracking echo_parse (take 5 rejected_then_closed)
                 (setup true true Bridge_init, tt) ∅)))
  = [TextAll (bytes "TRACK POWER OFF")].
Proof.
  assert (Hord : orderly_run echo_parse (take 5 rejected_then_closed)
                   (setup true true Bridge_init, tt) ∅).
  { cbn. repeat split; apply (bool_decide_unpack _); vm_compute; exact I. }
  split; [exact Hord|].
  exact (X16_broadcast_needs_a_client echo_parse true
           (take 5 rejected_then_closed) tt (bytes "TRACK POWER OFF") Hord).
Defined.
